(** * Euler's method for dy/dx = ky: the numerical core of [src/app.py]

    The program is embedded once, over an interface of the Python operations
    it applies to its numbers ([PyNumber], [PyMath], [PyNumpy]).  It has two
    instances:

    - [Binary64]: Python's [float], an IEEE 754 binary64 value, with the
      kernel's primitive floats.  This is what the program executes; every
      definition over it evaluates.  [math.exp] is CPython's wrapper around
      the C library's [exp], which is a parameter, and so is [np.linspace].
    - [Exact]: the same operations on real numbers, without rounding.  This is
      the reading of spec.md, which types every quantity as a real.

    Python exceptions are explicit: an operation that can raise returns a
    [result].

    Contents: the program and the two arithmetics; the closed form of the two
    loops and of the step traces; facts about binary64 arithmetic, derived
    from the specification of the primitive operations; the program on
    binary64 inputs; facts about the exponential; the program in exact
    arithmetic; the whole handler; the claims C1 to C10; further properties
    of the program, X1 to X16. *)

From Stdlib Require Import ZArith List Bool String Lia Floats Reals Lra Psatz.
Import ListNotations.

Set Warnings "-inexact-float".

(** ** Python exceptions and the result monad *)

Inductive PyExc : Set :=
| ZeroDivisionError
| ValueError
| OverflowError
| IndexError.

Inductive result (A : Type) : Type :=
| Ok (a : A)
| Raise (e : PyExc).

Arguments Ok {A} a.
Arguments Raise {A} e.

Definition bind {A B : Type} (r : result A) (f : A -> result B) : result B :=
  match r with
  | Ok a => f a
  | Raise e => Raise e
  end.

Declare Scope py_scope.
Delimit Scope py_scope with py.
Notation "x <- c1 ;; c2" := (bind c1 (fun x => c2))
  (at level 61, c1 at next level, right associativity) : py_scope.
Notation "' pat <- c1 ;; c2" := (bind c1 (fun x => match x with pat => c2 end))
  (at level 61, pat pattern, c1 at next level, right associativity) : py_scope.
Open Scope py_scope.

(** [l[i]] for [i >= 0]: [IndexError] out of range. *)
Definition index {A : Type} (l : list A) (i : nat) : result A :=
  match nth_error l i with
  | Some a => Ok a
  | None => Raise IndexError
  end.

(** [l[-1]]: [IndexError] on the empty list. *)
Definition index_last {A : Type} (l : list A) : result A :=
  match rev l with
  | a :: _ => Ok a
  | [] => Raise IndexError
  end.

(** [range(n)]: empty when [n <= 0]. *)
Definition range (n : Z) : list nat := seq 0 (Z.to_nat n).

(** [for i in l: s = body(i, s)], stopping at the first exception. *)
Fixpoint for_each {S : Type} (l : list nat) (body : nat -> S -> result S) (s : S)
  : result S :=
  match l with
  | [] => Ok s
  | i :: l' => s' <- body i s ;; for_each l' body s'
  end.

(** [[f(a) for a in l]], stopping at the first exception. *)
Fixpoint comprehension {A B : Type} (f : A -> result B) (l : list A)
  : result (list B) :=
  match l with
  | [] => Ok []
  | a :: l' => b <- f a ;; bs <- comprehension f l' ;; Ok (b :: bs)
  end.

(** ** The operations the program applies to its numbers *)

Class PyNumber (F : Type) : Type := {
  add : F -> F -> F;                 (* x + y *)
  sub : F -> F -> F;                 (* x - y *)
  mul : F -> F -> F;                 (* x * y *)
  truediv : F -> F -> result F;      (* x / y, ZeroDivisionError when y == 0 *)
  le : F -> F -> bool;               (* x <= y *)
  gt : F -> F -> bool;               (* x > y *)
  ne : F -> F -> bool;               (* x != y *)
  absf : F -> F;                     (* abs(x) *)
  int_ : F -> result Z;              (* int(x): truncation towards zero *)
  of_int : Z -> F                    (* an int literal used as a number *)
}.

Class PyMath (F : Type) : Type := {
  math_exp : F -> result F           (* math.exp(x) *)
}.

Class PyNumpy (F : Type) : Type := {
  linspace : F -> F -> nat -> list F (* np.linspace(start, stop, num) *)
}.

(** ** The program *)

(** One row of the table [df_data] (lines 53-59); the column names are
    ['Step'], ['x_n'], ['y_n'], ['f(x_n, y_n) = k*y_n'] and
    ['y_{n+1} = y_n + h*f(x_n, y_n)']. *)
Record StepRecord (F : Type) : Type := {
  Step : nat;
  x_n : F;
  y_n : F;
  slope_n : F;
  y_next : F
}.

Arguments Step {F} _.
Arguments x_n {F} _.
Arguments y_n {F} _.
Arguments slope_n {F} _.
Arguments y_next {F} _.

(** The variables of the first loop of [eulers_method] (lines 26-31). *)
Record EulerState (F : Type) : Type := {
  x_values : list F;
  y_values : list F;
  slopes : list F;
  x_current : F;
  y_current : F
}.

Arguments x_values {F} _.
Arguments y_values {F} _.
Arguments slopes {F} _.
Arguments x_current {F} _.
Arguments y_current {F} _.

(** What pressing "Calculate" leads to, up to the point where the results are
    handed to the table and the chart (lines 126-143). *)
Inductive Outcome (F : Type) : Type :=
| StError (msg : string)
    (* one of the three validation messages; the handler returns *)
| CalcError (e : PyExc)
    (* the [except] branch: "An error occurred during calculation: ..." *)
| Calculated (df : list (StepRecord F)) (xs ys : list F) (final_x final_y : F).

Arguments StError {F} msg.
Arguments CalcError {F} e.
Arguments Calculated {F} df xs ys final_x final_y.

(** The three messages of the input checks of [main] (lines 129, 133, 137),
    under the names spec.md gives to the failure kinds. *)
Definition InvalidStepSize : string := "Step size must be positive!".
Definition InvalidRange : string :=
  "Target x value must be greater than initial x value!".
Definition StepCountExceeded : string :=
  "Too many steps! Please increase step size or decrease target range.".

(** The data of one [go.Scatter] trace: its [x] and [y] lists. *)
Record Trace (F : Type) : Type := {
  trace_x : list F;
  trace_y : list F
}.

Arguments trace_x {F} _.
Arguments trace_y {F} _.

(** What pressing "Calculate" leads to in the end (lines 126-279): one of
    the three validation messages, the [except] branch, or the figures of
    the "Results" section. *)
Inductive Report (F : Type) : Type :=
| Rejected (msg : string)
| Failed (e : PyExc)
| Shown (df : list (StepRecord F)) (xs ys : list F)
    (final_x final_y analytical_y error relative_error : F).

Arguments Rejected {F} msg.
Arguments Failed {F} e.
Arguments Shown {F} df xs ys final_x final_y analytical_y error relative_error.

Section Program.
Context {F : Type} {num : PyNumber F}.

(** Lines 36-48: the body of the first loop. *)
Definition euler_step (k h : F) (s : EulerState F) : EulerState F :=
  let slope := mul k (y_current s) in
  let x_next := add (x_current s) h in
  let y_next := add (y_current s) (mul h slope) in
  {| x_values := x_values s ++ [x_next];
     y_values := y_values s ++ [y_next];
     slopes := slopes s ++ [slope];
     x_current := x_next;
     y_current := y_next |}.

(** Lines 53-59: the body of the second loop. *)
Definition df_row (s : EulerState F) (i : nat) : result (StepRecord F) :=
  xi <- index (x_values s) i ;;
  yi <- index (y_values s) i ;;
  si <- index (slopes s) i ;;
  yi' <- index (y_values s) (i + 1) ;;
  Ok {| Step := i; x_n := xi; y_n := yi; slope_n := si; y_next := yi' |}.

(** Lines 8-63. *)
Definition eulers_method (k x0 y0 x_target h : F)
  : result (list (StepRecord F) * list F * list F) :=
  q <- truediv (sub x_target x0) h ;;
  num_steps <- int_ q ;;
  let s0 := {| x_values := [x0]; y_values := [y0]; slopes := [];
               x_current := x0; y_current := y0 |} in
  s <- for_each (range num_steps) (fun _ s => Ok (euler_step k h s)) s0 ;;
  df_data <- for_each (range num_steps)
               (fun i df => row <- df_row s i ;; Ok (df ++ [row])) [] ;;
  Ok (df_data, x_values s, y_values s).

(** Lines 65-70. *)
Definition analytical_solution {mth : PyMath F} (k x0 y0 x : F) : result F :=
  e <- math_exp (mul k (sub x x0)) ;;
  Ok (mul y0 e).

(** Lines 246-247 of [main]: the pair [(error, relative_error)]. *)
Definition error_metrics (final_y analytical_y : F) : result (F * F) :=
  let error := absf (sub analytical_y final_y) in
  relative_error <-
    (if ne analytical_y (of_int 0)
     then d <- truediv error (absf analytical_y) ;; Ok (mul d (of_int 100))
     else Ok (of_int 0)) ;;
  Ok (error, relative_error).

(** Lines 128-138 of [main]: the message of the first check that fails. *)
Definition validate (x0 x_target h : F) : result (option string) :=
  if le h (of_int 0) then Ok (Some InvalidStepSize)
  else if le x_target x0 then Ok (Some InvalidRange)
  else
    q <- truediv (sub x_target x0) h ;;
    if gt q (of_int 10000) then Ok (Some StepCountExceeded)
    else Ok None.

(** Lines 126-143 of [main]: the handler of the "Calculate" button.  The
    checks run before the [try]; an exception inside it is caught. *)
Definition main (k x0 y0 x_target h : F) : result (Outcome F) :=
  v <- validate x0 x_target h ;;
  match v with
  | Some msg => Ok (StError msg)
  | None =>
      match
        '(df, xs, ys) <- eulers_method k x0 y0 x_target h ;;
        final_x <- index_last xs ;;
        final_y <- index_last ys ;;
        Ok (Calculated df xs ys final_x final_y)
      with
      | Ok o => Ok o
      | Raise e => Ok (CalcError e)
      end
  end.

(** Lines 142-143 of [main]: [final_x, final_y = x_values[-1], y_values[-1]]. *)
Definition final_point (k x0 y0 x_target h : F) : result (F * F) :=
  '(_, xs, ys) <- eulers_method k x0 y0 x_target h ;;
  final_x <- index_last xs ;;
  final_y <- index_last ys ;;
  Ok (final_x, final_y).

(** Lines 165-166 of [main]: the abscissas and the ordinates of the
    analytical curve, sampled at 100 points from [x0] to [x_target]. *)
Definition analytical_curve {mth : PyMath F} {np : PyNumpy F}
  (k x0 y0 x_target : F) : result (list F * list F) :=
  let x_analytical := linspace x0 x_target 100 in
  y_analytical <- comprehension (analytical_solution k x0 y0) x_analytical ;;
  Ok (x_analytical, y_analytical).

(** Lines 196-212: the two traces added for step [i], the horizontal one
    first. *)
Definition step_trace_pair (x_values y_values : list F) (i : nat)
  : result (list (Trace F)) :=
  xi <- index x_values i ;;
  xi' <- index x_values (i + 1) ;;
  yi <- index y_values i ;;
  yi2 <- index y_values i ;;
  let horizontal := {| trace_x := [xi; xi']; trace_y := [yi; yi2] |} in
  xj <- index x_values (i + 1) ;;
  xj' <- index x_values (i + 1) ;;
  yj <- index y_values i ;;
  yj' <- index y_values (i + 1) ;;
  let vertical := {| trace_x := [xj; xj']; trace_y := [yj; yj'] |} in
  Ok [horizontal; vertical].

(** Lines 193-212: the step visualization, drawn only for at most 20
    points. *)
Definition step_traces (x_values y_values : list F) : result (list (Trace F)) :=
  if (List.length x_values <=? 20)%nat then
    for_each (range (Z.of_nat (List.length x_values) - 1))
      (fun i traces => pair <- step_trace_pair x_values y_values i ;;
                       Ok (traces ++ pair)) []
  else Ok [].

(** Lines 143-247 of [main]: what the [try] block computes after the run,
    in the order of the code, down to the figures of the "Results" section,
    [(final_x, final_y, analytical_y, error, relative_error)]: the last
    point (143), the analytical value there (162), the analytical curve
    (165-166), the step traces (193-212) and the two errors (246-247).  An
    exception of any of them ends the block.  The calls into streamlit,
    pandas and plotly are not modelled. *)
Definition results {mth : PyMath F} {np : PyNumpy F}
  (k x0 y0 x_target : F) (xs ys : list F) : result (F * F * F * F * F) :=
  final_x <- index_last xs ;;
  final_y <- index_last ys ;;
  analytical_y <- analytical_solution k x0 y0 final_x ;;
  _ <- analytical_curve k x0 y0 x_target ;;
  _ <- step_traces xs ys ;;
  '(error, relative_error) <- error_metrics final_y analytical_y ;;
  Ok (final_x, final_y, analytical_y, error, relative_error).


(** Lines 142-247 of [main]: the relative error shown for a run, in
    percent. *)
Definition relative_error {mth : PyMath F} {np : PyNumpy F}
  (k x0 y0 x_target h : F) : result F :=
  '(_, xs, ys) <- eulers_method k x0 y0 x_target h ;;
  '(_, _, _, _, relative) <- results k x0 y0 x_target xs ys ;;
  Ok relative.

(** Lines 126-279 of [main]: the whole handler of the "Calculate" button.
    The checks run before the [try]; whatever the block raises is caught
    by [except Exception]. *)
Definition calculate {mth : PyMath F} {np : PyNumpy F}
  (k x0 y0 x_target h : F) : result (Report F) :=
  v <- validate x0 x_target h ;;
  match v with
  | Some msg => Ok (Rejected msg)
  | None =>
      match
        '(df, xs, ys) <- eulers_method k x0 y0 x_target h ;;
        '(final_x, final_y, analytical_y, error, relative_error) <-
          results k x0 y0 x_target xs ys ;;
        Ok (Shown df xs ys final_x final_y analytical_y error relative_error)
      with
      | Ok o => Ok o
      | Raise e => Ok (Failed e)
      end
  end.

End Program.

(** ** Python's [float]: IEEE 754 binary64 *)

Module Binary64.

(** [int(x)] of a float: [ValueError] on NaN, [OverflowError] on an
    infinity, otherwise the integer part of [m * 2^e]. *)
Definition int_of_float (x : float) : result Z :=
  match Prim2SF x with
  | S754_zero _ => Ok 0%Z
  | S754_nan => Raise ValueError
  | S754_infinity _ => Raise OverflowError
  | S754_finite s m e => Ok (cond_Zopp s (Z.shiftl (Zpos m) e))
  end.

(** [math.floor(x)] of a float, for comparison with [int(x)]: the floor of
    [+-m * 2^e]. *)
Definition floor_of_float (x : float) : result Z :=
  match Prim2SF x with
  | S754_zero _ => Ok 0%Z
  | S754_nan => Raise ValueError
  | S754_infinity _ => Raise OverflowError
  | S754_finite s m e => Ok (Z.shiftl (cond_Zopp s (Zpos m)) e)
  end.

(** An int as a float: the nearest float, ties to even. *)
Definition float_of_int (z : Z) : float :=
  SF2Prim (binary_normalize prec emax z 0 false).

(** [x / y] on floats raises on a zero divisor, of either sign. *)
Definition float_truediv (x y : float) : result float :=
  if (y =? 0)%float then Raise ZeroDivisionError else Ok (x / y)%float.

#[export] Instance number : PyNumber float := {
  add := PrimFloat.add;
  sub := PrimFloat.sub;
  mul := PrimFloat.mul;
  truediv := float_truediv;
  le := PrimFloat.leb;
  gt := fun x y => PrimFloat.ltb y x;
  ne := fun x y => negb (PrimFloat.eqb x y);
  absf := PrimFloat.abs;
  int_ := int_of_float;
  of_int := float_of_int
}.

(** The classification tests of C: [isnan], [isinf], [isfinite]. *)
Definition is_nan (x : float) : bool := negb (x =? x)%float.
Definition is_inf (x : float) : bool := (abs x =? infinity)%float.
Definition is_finite (x : float) : bool := (abs x <? infinity)%float.

(** [math.exp]: CPython's wrapper ([math_1] in mathmodule.c) around the C
    library's [exp], here the parameter [libm_exp].  A NaN from a number is
    a [ValueError], an infinity from a finite argument an [OverflowError]. *)
Definition math_exp_of (libm_exp : float -> float) (x : float) : result float :=
  let r := libm_exp x in
  if is_nan r && negb (is_nan x) then Raise ValueError
  else if is_inf r && is_finite x then Raise OverflowError
  else Ok r.

Definition math (libm_exp : float -> float) : PyMath float :=
  {| math_exp := math_exp_of libm_exp |}.

(** [np.linspace] on floats is numpy's; it is the parameter [np_linspace]. *)
Definition numpy (np_linspace : float -> float -> nat -> list float)
  : PyNumpy float :=
  {| linspace := np_linspace |}.

End Binary64.

(** ** Exact arithmetic on real numbers *)

Module Exact.

(** Truncation towards zero. *)
Definition Rtrunc (x : R) : Z :=
  if Rle_dec 0 x then Int_part x else (- Int_part (- x))%Z.

Definition Rtruediv (x y : R) : result R :=
  if Req_dec_T y 0 then Raise ZeroDivisionError else Ok (x / y)%R.

#[export] Instance number : PyNumber R := {
  add := Rplus;
  sub := Rminus;
  mul := Rmult;
  truediv := Rtruediv;
  le := fun x y => if Rle_dec x y then true else false;
  gt := fun x y => if Rgt_dec x y then true else false;
  ne := fun x y => if Req_dec_T x y then false else true;
  absf := Rabs;
  int_ := fun x => Ok (Rtrunc x);
  of_int := IZR
}.

#[export] Instance math : PyMath R := {| math_exp := fun x => Ok (exp x) |}.

(** [num] points from [start] to [stop], evenly spaced. *)
Definition Rlinspace (start stop : R) (num : nat) : list R :=
  map (fun i => start + INR i * ((stop - start) / INR (num - 1)))%R (seq 0 num).

#[export] Instance numpy : PyNumpy R := {| linspace := Rlinspace |}.

(** The step count of a valid input, as a natural number: the floor of the
    quotient. *)
Definition steps (x0 x_target h : R) : nat :=
  Z.to_nat (Int_part ((x_target - x0) / h)).

End Exact.

(** ** The closed form of the two loops *)

Section ClosedForm.
Context {F : Type} {num : PyNumber F}.
Variables k x0 y0 h : F.

(** The [i]-th point of the trajectory: [i] steps from [(x0, y0)]. *)
Definition x_at (i : nat) : F := Nat.iter i (fun x => add x h) x0.
Definition y_at (i : nat) : F := Nat.iter i (fun y => add y (mul h (mul k y))) y0.

Definition row_at (i : nat) : StepRecord F :=
  {| Step := i; x_n := x_at i; y_n := y_at i;
     slope_n := mul k (y_at i); y_next := y_at (S i) |}.

Definition state_at (n : nat) : EulerState F :=
  {| x_values := map x_at (seq 0 (S n));
     y_values := map y_at (seq 0 (S n));
     slopes := map (fun i => mul k (y_at i)) (seq 0 n);
     x_current := x_at n;
     y_current := y_at n |}.

End ClosedForm.

(** ** Valid inputs

    The three conditions of [main], as spec.md words them: [h > 0],
    [x_target > x0], and a quotient within the cap of 10000. *)

Definition valid_input {F : Type} {num : PyNumber F} (x0 x_target h : F) : Prop :=
  gt h (of_int 0) = true /\
  gt x_target x0 = true /\
  exists q, truediv (sub x_target x0) h = Ok q /\ le q (of_int 10000) = true.

(** ** Predicates on binary64 values *)

Module SF.

(** The sign bit of [x] is [s0], where [x] has one that matters. *)
Definition sign_ok (s0 : bool) (x : spec_float) : Prop :=
  match x with
  | S754_zero _ | S754_nan => True
  | S754_infinity s | S754_finite s _ _ => s = s0
  end.

Definition positive_sf (y : spec_float) : Prop :=
  match y with
  | S754_infinity false | S754_finite false _ _ => True
  | _ => False
  end.

Definition zero_or_nan (x : spec_float) : Prop :=
  match x with S754_zero _ | S754_nan => True | _ => False end.

Definition finite_sf (x : spec_float) : Prop :=
  match x with S754_zero _ | S754_finite _ _ _ => True | _ => False end.

(** The integer of a finite float once its mantissa is shifted to the
    exponent [ez], as [SFadd] and [SFsub] align their operands. *)
Definition aligned (s : bool) (m : positive) (e ez : Z) : Z :=
  cond_Zopp s (Zpos (fst (shl_align m e ez))).

End SF.


Definition exp_overflows (libm_exp : float -> float) : Prop :=
  forall x, (710 <=? x)%float = true -> libm_exp x = infinity.

(** A function with these two properties; it stands for the C library's
    [exp] where a closed instance is needed. *)
Definition exp_sample (x : float) : float :=
  if (710 <=? x)%float then infinity else 1%float.

(** The doubles at most two units in the last place away from [c]. *)
Definition within_2ulp (c : float) : list float :=
  [next_down (next_down c); next_down c; c; next_up c; next_up (next_up c)].

(** The C library's [exp] returns at [a] a double at most two units in the
    last place away from [c]; [c] is meant to be the double nearest to the
    exponential of [a]. *)
Definition exp_near (libm_exp : float -> float) (a c : float) : Prop :=
  In (libm_exp a) (within_2ulp c).

(** The exponential series to degree [n], evaluated on binary64 by Horner's
    rule from the term of index [i] on; [exp_series] stands for the C
    library's [exp] near the origin where a closed instance is needed. *)
Fixpoint horner (x : float) (n : nat) (i : float) : float :=
  match n with
  | O => 1%float
  | S n' => (1 + x * horner x n' (i + 1) / i)%float
  end.

Definition exp_series (x : float) : float := horner x 22 1%float.

(** A grid of the two end points only; it stands for [np.linspace] where a
    closed instance is needed. *)
Definition end_points (start stop : float) (num : nat) : list float :=
  [start; stop].

(** ** The exponential series at 1, in integers *)

Module Series.

(** [n!], and the numerator of [1/0! + ... + 1/n!] over the denominator [n!]. *)
Fixpoint Zfact (n : nat) : Z :=
  match n with O => 1 | S m => (Z.of_nat n * Zfact m)%Z end.

Fixpoint e_num (n : nat) : Z :=
  match n with O => 1 | S m => (Z.of_nat n * e_num m + 1)%Z end.

(** The partial sum [E1 1 n] plus a bound [1 / (n! n)] of the remainder. *)
Definition E1_upper (n : nat) : R := (E1 1 n + / (INR (fact n) * INR n))%R.

End Series.

(** ** The properties that spec.md states of a run *)

Section Properties.
Context {F : Type} {num : PyNumber F}.

(** The forward Euler recurrence on the results of a run of [n] steps: the
    start is [(x0, y0)], and step [i] reads point [i], records the slope
    [k * y_i], and writes point [i + 1]. *)
Definition euler_recurrence (k x0 y0 h : F) (n : nat)
    (df : list (StepRecord F)) (xs ys : list F) : Prop :=
  index xs 0 = Ok x0 /\ index ys 0 = Ok y0 /\
  forall i, (i < n)%nat ->
    exists xi yi,
      index xs i = Ok xi /\ index ys i = Ok yi /\
      index xs (i + 1) = Ok (add xi h) /\
      index ys (i + 1) = Ok (add yi (mul h (mul k yi))) /\
      index df i =
        Ok {| Step := i; x_n := xi; y_n := yi; slope_n := mul k yi;
              y_next := add yi (mul h (mul k yi)) |}.

(** Each element is greater ([>]) than the one before it. *)
Fixpoint strictly_increasing (l : list F) : bool :=
  match l with
  | a :: (b :: _) as t => gt b a && strictly_increasing t
  | _ => true
  end.

End Properties.

(** ** More of [main]: the accuracy note and the widget of the step size *)

(** The three calls of lines 271-276: [st.warning], [st.success], [st.info]. *)
Inductive Note : Set :=
| Warning
| Success
| Info.

(** The two traces of step [i] of a run, from its closed form: from point
    [i] across to the next abscissa, then up or down to point [i + 1]. *)
Definition step_pair_at {F : Type} {num : PyNumber F} (k x0 y0 h : F) (i : nat)
  : list (Trace F) :=
  [ {| trace_x := [x_at x0 h i; x_at x0 h (S i)];
       trace_y := [y_at k y0 h i; y_at k y0 h i] |};
    {| trace_x := [x_at x0 h (S i); x_at x0 h (S i)];
       trace_y := [y_at k y0 h i; y_at k y0 h (S i)] |} ].

Module Verdict.

(** Lines 271-276: which note follows the results.  [5] is an int literal,
    [0.1] a float literal. *)
Definition accuracy_note (relative_error : float) : Note :=
  if (Binary64.float_of_int 5 <? relative_error)%float then Warning
  else if (relative_error <? 0.1)%float then Success
  else Info.

(** Lines 246-247 and 271-276 together: the note shown for a final value and
    an analytical value. *)
Definition accuracy_verdict (final_y analytical_y : float) : result Note :=
  '(_, relative_error) <- error_metrics (num := Binary64.number) final_y analytical_y ;;
  Ok (accuracy_note relative_error).

End Verdict.


(** Lines 116-123 of [main]: the bounds that the widget of the step size
    declares, [min_value=0.001] and [max_value=1.0]. *)
Module StepSize.

Definition min_value : float := 0.001%float.
Definition max_value : float := 1%float.

Definition in_range (h : float) : bool :=
  ((min_value <=? h) && (h <=? max_value))%float.

End StepSize.

(** ** Proof automation *)

(** Splits a goal made of conjunctions and equivalences and closes the
    parts that hold by constructors alone. *)
Ltac classify :=
  repeat match goal with
         | |- _ /\ _ => split
         | |- _ <-> _ => split; intros
         | H : _ /\ _ |- _ => destruct H
         | H : exists _, _ |- _ => destruct H
         | H : False |- _ => destruct H
         end;
  try discriminate; try congruence; try exact I; eauto.

(** ** What the two loops compute, for any arithmetic *)

Section Loops.
Context {F : Type} {num : PyNumber F}.
Variables k x0 y0 h : F.

Local Abbreviation x_at := (x_at x0 h).
Local Abbreviation y_at := (y_at k y0 h).
Local Abbreviation row_at := (row_at k x0 y0 h).
Local Abbreviation state_at := (state_at k x0 y0 h).

Lemma x_at_S i : x_at (S i) = add (x_at i) h.
Proof. reflexivity. Qed.

Lemma y_at_S i : y_at (S i) = add (y_at i) (mul h (mul k (y_at i))).
Proof. reflexivity. Qed.

Lemma euler_step_state_at n : euler_step k h (state_at n) = state_at (S n).
Proof.
  unfold euler_step, state_at; cbn [x_values y_values slopes x_current y_current].
  rewrite (seq_S (S n)), (seq_S n), !map_app. reflexivity.
Qed.

(** A loop whose body cannot raise runs to its end. *)
Lemma for_each_pure {S : Type} (f : S -> S) (l : list nat) (s : S) :
  for_each l (fun _ s => Ok (f s)) s = Ok (Nat.iter (List.length l) f s).
Proof.
  revert s; induction l as [|i l IH]; intros s; [reflexivity|].
  cbn [for_each bind List.length]. rewrite IH. f_equal.
  now rewrite Nat.iter_succ_r.
Qed.

Lemma first_loop n :
  for_each (seq 0 n) (fun _ s => Ok (euler_step k h s)) (state_at 0)
  = Ok (state_at n).
Proof.
  rewrite for_each_pure, length_seq. f_equal.
  induction n as [|n IH]; [reflexivity|].
  rewrite Nat.iter_succ, IH. apply euler_step_state_at.
Qed.

Lemma index_map_seq {A : Type} (f : nat -> A) (m i : nat) :
  (i < m)%nat -> index (map f (seq 0 m)) i = Ok (f i).
Proof.
  intros Hi. unfold index.
  rewrite (nth_error_map f i (seq 0 m)), nth_error_seq.
  destruct (Nat.ltb_spec i m); [reflexivity | lia].
Qed.

(** No lookup of the second loop is out of range. *)
Lemma df_row_state_at n i : (i < n)%nat -> df_row (state_at n) i = Ok (row_at i).
Proof.
  intros Hi. unfold df_row, state_at; cbn [x_values y_values slopes].
  rewrite !index_map_seq by lia. cbn [bind].
  now rewrite Nat.add_1_r.
Qed.

Lemma second_loop n a m acc :
  (a + m <= n)%nat ->
  for_each (seq a m)
    (fun i df => row <- df_row (state_at n) i ;; Ok (df ++ [row])) acc
  = Ok (acc ++ map row_at (seq a m)).
Proof.
  revert a acc; induction m as [|m IH]; intros a acc Hle.
  - cbn. now rewrite app_nil_r.
  - cbn [seq for_each map]. rewrite df_row_state_at by lia. cbn [bind].
    rewrite IH by lia. now rewrite <- app_assoc.
Qed.

End Loops.

Section Unfolded.
Context {F : Type} {num : PyNumber F}.

(** [eulers_method] raises only where the quotient or [int] does; otherwise
    it returns the table and the two coordinate lists of the closed form. *)
Theorem eulers_method_unfold (k x0 y0 x_target h : F) :
  eulers_method k x0 y0 x_target h =
  (q <- truediv (sub x_target x0) h ;;
   num_steps <- int_ q ;;
   let n := Z.to_nat num_steps in
   Ok (map (row_at k x0 y0 h) (seq 0 n),
       map (x_at x0 h) (seq 0 (S n)),
       map (y_at k y0 h) (seq 0 (S n)))).
Proof.
  unfold eulers_method.
  destruct (truediv (sub x_target x0) h) as [q|e]; [|reflexivity].
  cbn [bind]. destruct (int_ q) as [n|e]; [|reflexivity].
  cbn [bind]. unfold range.
  change {| x_values := [x0]; y_values := [y0]; slopes := [];
            x_current := x0; y_current := y0 |}
    with (state_at k x0 y0 h 0).
  rewrite first_loop. cbn [bind].
  rewrite second_loop by lia. reflexivity.
Qed.

Lemma index_last_map_seq {A : Type} (f : nat -> A) (n : nat) :
  index_last (map f (seq 0 (S n))) = Ok (f n).
Proof.
  unfold index_last. rewrite seq_S, map_app, rev_app_distr. reflexivity.
Qed.

Theorem final_point_unfold (k x0 y0 x_target h : F) :
  final_point k x0 y0 x_target h =
  (q <- truediv (sub x_target x0) h ;;
   num_steps <- int_ q ;;
   Ok (x_at x0 h (Z.to_nat num_steps), y_at k y0 h (Z.to_nat num_steps))).
Proof.
  unfold final_point. rewrite eulers_method_unfold.
  destruct (truediv (sub x_target x0) h) as [q|e]; [|reflexivity].
  cbn [bind]. destruct (int_ q) as [n|e]; [|reflexivity].
  cbn [bind]. now rewrite !index_last_map_seq.
Qed.

(** The trajectory and the table of a run of [n] steps satisfy the
    recurrence of the forward Euler method. *)
Lemma closed_form_recurrence (k x0 y0 h : F) (n i : nat) :
  (i < n)%nat ->
  let xs := map (x_at x0 h) (seq 0 (S n)) in
  let ys := map (y_at k y0 h) (seq 0 (S n)) in
  let df := map (row_at k x0 y0 h) (seq 0 n) in
  exists xi yi,
    index xs i = Ok xi /\ index ys i = Ok yi /\
    index xs (i + 1) = Ok (add xi h) /\
    index ys (i + 1) = Ok (add yi (mul h (mul k yi))) /\
    index df i =
      Ok {| Step := i; x_n := xi; y_n := yi; slope_n := mul k yi;
            y_next := add yi (mul h (mul k yi)) |}.
Proof.
  intros Hi xs ys df. exists (x_at x0 h i), (y_at k y0 h i).
  subst xs ys df. rewrite Nat.add_1_r, !index_map_seq by lia.
  repeat split; reflexivity.
Qed.

(** A run whose quotient and step count are computed satisfies the
    recurrence, with a table of [n] rows and [n + 1] points. *)
Theorem eulers_method_run (k x0 y0 x_target h q : F) (n : Z) :
  truediv (sub x_target x0) h = Ok q -> int_ q = Ok n ->
  exists df xs ys,
    eulers_method k x0 y0 x_target h = Ok (df, xs, ys) /\
    List.length df = Z.to_nat n /\
    List.length xs = S (Z.to_nat n) /\
    List.length ys = S (Z.to_nat n) /\
    euler_recurrence k x0 y0 h (Z.to_nat n) df xs ys.
Proof.
  intros Hq Hn. rewrite eulers_method_unfold, Hq. cbn [bind]. rewrite Hn.
  cbn [bind]. do 3 eexists. split; [reflexivity|].
  rewrite !length_map, !length_seq. repeat split.
  intros i Hi. now apply closed_form_recurrence.
Qed.

End Unfolded.

(** ** More on the outputs of a run, for any arithmetic *)

Section RunOutputs.
Context {F : Type} {num : PyNumber F}.

(** What [eulers_method] returns is the closed form for some step count. *)
Lemma eulers_method_inv (k x0 y0 x_target h : F) df xs ys :
  eulers_method k x0 y0 x_target h = Ok (df, xs, ys) ->
  exists n : nat,
    df = map (row_at k x0 y0 h) (seq 0 n) /\
    xs = map (x_at x0 h) (seq 0 (S n)) /\
    ys = map (y_at k y0 h) (seq 0 (S n)) /\
    final_point k x0 y0 x_target h = Ok (x_at x0 h n, y_at k y0 h n).
Proof.
  rewrite final_point_unfold, eulers_method_unfold.
  destruct (truediv (sub x_target x0) h) as [q|e]; [|discriminate].
  cbn [bind]. destruct (int_ q) as [n|e]; [|discriminate].
  cbn [bind]. intros [= <- <- <-]. exists (Z.to_nat n). auto.
Qed.

Lemma step_trace_pair_run (k x0 y0 h : F) (n i : nat) :
  (i < n)%nat ->
  step_trace_pair (map (x_at x0 h) (seq 0 (S n))) (map (y_at k y0 h) (seq 0 (S n))) i
  = Ok (step_pair_at k x0 y0 h i).
Proof.
  intros Hi. unfold step_trace_pair.
  rewrite Nat.add_1_r, !index_map_seq by lia. reflexivity.
Qed.

Lemma step_loop_run (k x0 y0 h : F) (n a m : nat) (acc : list (Trace F)) :
  (a + m <= n)%nat ->
  for_each (seq a m)
    (fun i traces =>
       pair <- step_trace_pair (map (x_at x0 h) (seq 0 (S n)))
                               (map (y_at k y0 h) (seq 0 (S n))) i ;;
       Ok (traces ++ pair)) acc
  = Ok (acc ++ flat_map (step_pair_at k x0 y0 h) (seq a m)).
Proof.
  revert a acc. induction m as [|m IH]; intros a acc Hle.
  - cbn. now rewrite app_nil_r.
  - change (seq a (S m)) with (a :: seq (S a) m). cbn [for_each flat_map].
    rewrite step_trace_pair_run by lia. cbn [bind].
    rewrite IH by lia. now rewrite <- app_assoc.
Qed.

Lemma step_traces_run (k x0 y0 h : F) (n : nat) :
  step_traces (map (x_at x0 h) (seq 0 (S n))) (map (y_at k y0 h) (seq 0 (S n)))
  = Ok (if (n <=? 19)%nat then flat_map (step_pair_at k x0 y0 h) (seq 0 n) else []).
Proof.
  unfold step_traces. rewrite length_map, length_seq.
  change (S n <=? 20)%nat with (n <=? 19)%nat.
  destruct (n <=? 19)%nat; [|reflexivity].
  unfold range. replace (Z.to_nat (Z.of_nat (S n) - 1)) with n by lia.
  now rewrite step_loop_run by lia.
Qed.

Lemma length_flat_map_pairs (k x0 y0 h : F) (l : list nat) :
  List.length (flat_map (step_pair_at k x0 y0 h) l) = (2 * List.length l)%nat.
Proof.
  induction l as [|i l IH]; [reflexivity|].
  cbn [flat_map List.length app step_pair_at]. rewrite IH. lia.
Qed.

End RunOutputs.

(** ** Facts about binary64 arithmetic

    Derived from the specification of the primitive operations
    ([FloatAxioms]): the sign of a rounded result, the sign of a difference
    of ordered floats and of a quotient by a positive float, and the exact
    cases [x - x], [k * 0] and [y * 1]. *)

Module Binary64Facts.
Import SF.
Local Open Scope float_scope.

Lemma binary_round_aux_sign s m e l : sign_ok s (binary_round_aux prec emax s m e l).
Proof.
unfold binary_round_aux.
destruct (shr_fexp prec emax m e l) as [mrs' e'].
destruct (shr_fexp prec emax _ e' loc_Exact) as [mrs'' e''].
destruct (shr_m mrs''); cbn; auto.
destruct (Z.leb _ _); cbn; auto.
Qed.

Lemma binary_round_sign s m e : sign_ok s (binary_round prec emax s m e).
Proof.
unfold binary_round. destruct (shl_align _ _ _). apply binary_round_aux_sign.
Qed.

Lemma digits2_pos_size m : digits2_pos m = Pos.size m.
Proof. induction m; cbn; congruence. Qed.

Lemma digits_bounds m :
(2 ^ Zpos (digits2_pos m) <= 2 * Zpos m < 2 * 2 ^ Zpos (digits2_pos m))%Z.
Proof.
rewrite digits2_pos_size.
pose proof (Pos.size_gt m). pose proof (Pos.size_le m).
rewrite <- !Pos2Z.inj_pow. lia.
Qed.

(** A valid mantissa has at most 53 bits, and exactly 53 above the least exponent. *)
Lemma bounded_inv m e :
SpecFloat.bounded prec emax m e = true ->
(-1074 <= e <= 971)%Z /\ (Zpos m < 2 ^ 53)%Z /\ (-1074 < e -> 2 ^ 52 <= Zpos m)%Z.
Proof.
unfold SpecFloat.bounded, canonical_mantissa, fexp, emin, prec, emax.
intros H. apply andb_true_iff in H as [H1 H2].
apply Z.eqb_eq in H1. apply Z.leb_le in H2.
pose proof (digits_bounds m) as [Hlo Hhi].
assert (Hd : (Zpos (digits2_pos m) <= 53)%Z) by lia.
split; [lia|]. split.
- assert (2 ^ Zpos (digits2_pos m) <= 2 ^ 53)%Z by (apply Z.pow_le_mono_r; lia). lia.
- intros He. assert (Zpos (digits2_pos m) = 53)%Z as Heq by lia.
  rewrite Heq in Hlo. change (2 ^ 53)%Z with (2 * 2 ^ 52)%Z in Hlo. lia.
Qed.

Lemma iter_xO m d : Zpos (Pos.iter xO m d) = (Zpos m * 2 ^ Zpos d)%Z.
Proof.
induction d as [|d IH] using Pos.peano_ind.
- cbn. lia.
- rewrite Pos.iter_succ, Pos2Z.inj_xO, IH, Pos2Z.inj_succ, Z.pow_succ_r by lia. lia.
Qed.

Lemma shl_align_value m e e' :
(e' <= e)%Z -> Zpos (fst (shl_align m e e')) = (Zpos m * 2 ^ (e - e'))%Z.
Proof.
intros Hle. unfold shl_align.
destruct (e' - e)%Z as [|p|p] eqn:Hd; cbn [fst]; try lia.
- replace (e - e')%Z with 0%Z by lia. lia.
- rewrite iter_xO. f_equal. f_equal. lia.
Qed.

Lemma compare_aligned s1 m1 e1 s2 m2 e2 :
SpecFloat.bounded prec emax m1 e1 = true -> SpecFloat.bounded prec emax m2 e2 = true ->
SFcompare (S754_finite s1 m1 e1) (S754_finite s2 m2 e2) = Some Lt ->
(aligned s1 m1 e1 (Z.min e1 e2) < aligned s2 m2 e2 (Z.min e1 e2))%Z.
Proof.
intros B1 B2 Hc.
apply bounded_inv in B1 as (R1 & U1 & L1), B2 as (R2 & U2 & L2).
unfold aligned. rewrite !shl_align_value by lia.
assert (P1 : (0 < Zpos m1 * 2 ^ (e1 - Z.min e1 e2))%Z)
  by (apply Z.mul_pos_pos; [lia | apply Z.pow_pos_nonneg; lia]).
assert (P2 : (0 < Zpos m2 * 2 ^ (e2 - Z.min e1 e2))%Z)
  by (apply Z.mul_pos_pos; [lia | apply Z.pow_pos_nonneg; lia]).
cbn [SFcompare] in Hc.
destruct s1, s2; cbn [cond_Zopp]; try discriminate; try lia.
- (* both negative *)
  destruct (Z.compare_spec e1 e2) as [He|He|He]; try discriminate.
  + subst e2. rewrite Z.min_id, Z.sub_diag, !Z.mul_1_r.
    change (Pos.compare_cont Eq m1 m2) with (Pos.compare m1 m2) in Hc.
    destruct (Pos.compare_spec m1 m2); try discriminate. lia.
  + rewrite Z.min_r, Z.sub_diag, Z.mul_1_r by lia.
    assert (2 ^ 1 <= 2 ^ (e1 - e2))%Z by (apply Z.pow_le_mono_r; lia).
    change (2 ^ 1)%Z with 2%Z in *. nia.
- (* both positive *)
  destruct (Z.compare_spec e1 e2) as [He|He|He]; try discriminate.
  + subst e2. rewrite Z.min_id, Z.sub_diag, !Z.mul_1_r.
    change (Pos.compare_cont Eq m1 m2) with (Pos.compare m1 m2) in Hc.
    destruct (Pos.compare_spec m1 m2); try discriminate. lia.
  + rewrite Z.min_l, Z.sub_diag, Z.mul_1_r by lia.
    assert (2 ^ 1 <= 2 ^ (e2 - e1))%Z by (apply Z.pow_le_mono_r; lia).
    change (2 ^ 1)%Z with 2%Z in *. nia.
Qed.

Lemma binary_normalize_sign z e :
sign_ok (Z.ltb z 0) (binary_normalize prec emax z e false).
Proof.
destruct z; cbn [binary_normalize]; [exact I | |]; apply binary_round_sign.
Qed.

Lemma sub_finite s1 m1 e1 s2 m2 e2 :
SF64sub (S754_finite s1 m1 e1) (S754_finite s2 m2 e2)
= binary_normalize prec emax
    (aligned s1 m1 e1 (Z.min e1 e2) - aligned s2 m2 e2 (Z.min e1 e2)) (Z.min e1 e2) false.
Proof. reflexivity. Qed.

(** The sign of a difference of two ordered floats. *)
Lemma sub_sign_lt a b :
valid_binary a = true -> valid_binary b = true ->
SFcompare b a = Some Lt ->
sign_ok false (SF64sub a b) /\ sign_ok true (SF64sub b a).
Proof.
intros Va Vb Hc.
destruct a as [sa|sa| |sa ma ea], b as [sb|sb| |sb mb eb];
  try discriminate;
  try (destruct sa, sb; cbn in Hc |- *; try discriminate; now auto).
rewrite !sub_finite. cbn [valid_binary] in Va, Vb.
pose proof (compare_aligned _ _ _ _ _ _ Vb Va Hc) as Hlt.
rewrite (Z.min_comm ea eb).
split.
- pose proof (binary_normalize_sign
    (aligned sa ma ea (Z.min eb ea) - aligned sb mb eb (Z.min eb ea)) (Z.min eb ea)) as H.
  destruct (Z.ltb_spec (aligned sa ma ea (Z.min eb ea) - aligned sb mb eb (Z.min eb ea)) 0);
    [lia | exact H].
- pose proof (binary_normalize_sign
    (aligned sb mb eb (Z.min eb ea) - aligned sa ma ea (Z.min eb ea)) (Z.min eb ea)) as H.
  destruct (Z.ltb_spec (aligned sb mb eb (Z.min eb ea) - aligned sa ma ea (Z.min eb ea)) 0);
    [exact H | lia].
Qed.

Lemma zero_or_nan_sign s x : zero_or_nan x -> sign_ok s x.
Proof. destruct x; cbn; tauto. Qed.

Lemma sub_eq a b :
SFcompare a b = Some Eq -> zero_or_nan (SF64sub a b).
Proof.
intros Hc.
destruct a as [sa|sa| |sa ma ea], b as [sb|sb| |sb mb eb];
  try discriminate;
  try (destruct sa, sb; cbn in Hc |- *; try discriminate; now auto).
rewrite sub_finite.
assert (sa = sb /\ ea = eb /\ ma = mb) as (-> & -> & ->).
{ cbn [SFcompare] in Hc.
  destruct sa, sb; try discriminate;
    destruct (Z.compare_spec ea eb); try discriminate;
    change (Pos.compare_cont Eq ma mb) with (Pos.compare ma mb) in Hc;
    destruct (Pos.compare_spec ma mb); try discriminate; auto. }
rewrite Z.sub_diag. exact I.
Qed.

Lemma ltb_zero_positive y : SFltb (S754_zero false) y = true -> positive_sf y.
Proof. destruct y as [s|s| |s m e]; try destruct s; cbn; auto; discriminate. Qed.

Lemma div_sign s x y : positive_sf y -> sign_ok s x -> sign_ok s (SF64div x y).
Proof.
intros Hy Hx.
destruct y as [sy|sy| |sy my ey]; try destruct sy; try contradiction;
  destruct x as [sx|sx| |sx mx ex]; cbn in Hx |- *; subst;
  try rewrite xorb_false_r; auto.
destruct (SFdiv_core_binary _ _ _ _ _ _) as [[mz ez] lz].
apply binary_round_aux_sign.
Qed.

Lemma Prim2SF_zero : Prim2SF 0 = S754_zero false.
Proof. reflexivity. Qed.

Theorem quotient_sign_gt (x0 x_target h : float) :
(0 <? h) = true -> (x0 <? x_target) = true ->
sign_ok false (Prim2SF ((x_target - x0) / h)).
Proof.
rewrite !ltb_spec, div_spec, sub_spec, Prim2SF_zero. intros Hh Hx.
apply div_sign; [now apply ltb_zero_positive|].
apply sub_sign_lt; try apply Prim2SF_valid.
unfold SFltb in Hx. destruct (SFcompare _ _) as [[| |]|]; congruence.
Qed.

Theorem quotient_sign_le (x0 x_target h : float) :
(0 <? h) = true -> (x_target <=? x0) = true ->
sign_ok true (Prim2SF ((x_target - x0) / h)).
Proof.
rewrite ltb_spec, leb_spec, div_spec, sub_spec, Prim2SF_zero. intros Hh Hx.
apply div_sign; [now apply ltb_zero_positive|].
unfold SFleb in Hx. destruct (SFcompare _ _) as [[| |]|] eqn:Hc; try discriminate.
- apply zero_or_nan_sign. now apply sub_eq.
- apply sub_sign_lt; auto using Prim2SF_valid.
Qed.





Lemma sub_diag_sf x : finite_sf x -> SF64sub x x = S754_zero false.
Proof.
destruct x as [s|s| |s m e]; cbn [finite_sf]; try contradiction; intros _.
- now destruct s.
- unfold SF64sub, SFsub. now rewrite Z.sub_diag.
Qed.


End Binary64Facts.

(** ** The program on binary64 inputs *)

Module Binary64Program.
Import SF Binary64 Binary64Facts.
Local Open Scope float_scope.

Lemma float_of_int_0 : float_of_int 0 = 0.
Proof. reflexivity. Qed.

Lemma float_of_int_100 : float_of_int 100 = 100.
Proof. vm_compute. reflexivity. Qed.

Lemma float_of_int_10000 : float_of_int 10000 = 10000.
Proof. vm_compute. reflexivity. Qed.

Lemma Prim2SF_10000 : Prim2SF 10000 = S754_finite false 5497558138880000 (-39).
Proof. reflexivity. Qed.

Lemma compare_cont_Eq (p q : positive) :
  Pos.compare_cont Eq p q = Pos.compare p q.
Proof. reflexivity. Qed.

(** [SFcompare] is antisymmetric. *)
Lemma SFcompare_antisym a b c :
  SFcompare a b = Some c -> SFcompare b a = Some (CompOpp c).
Proof.
  destruct a as [sa|sa| |sa ma ea], b as [sb|sb| |sb mb eb];
    try discriminate;
    try (destruct sa; try destruct sb; cbn; intros [= <-]; reflexivity).
  cbn [SFcompare]. intros [= <-]. f_equal.
  change (Pos.compare_cont Eq ma mb) with (Pos.compare ma mb).
  change (Pos.compare_cont Eq mb ma) with (Pos.compare mb ma).
  rewrite (Z.compare_antisym ea eb), (Pos.compare_antisym ma mb).
  destruct sa, sb; try reflexivity;
    destruct (Z.compare ea eb); cbn; try reflexivity;
    destruct (Pos.compare ma mb); reflexivity.
Qed.

Lemma ltb_leb_false (a b : float) : (a <? b) = true -> (b <=? a) = false.
Proof.
  rewrite ltb_spec, leb_spec. unfold SFltb, SFleb.
  destruct (SFcompare (Prim2SF a) (Prim2SF b)) as [c|] eqn:Hc; [|discriminate].
  rewrite (SFcompare_antisym _ _ _ Hc). now destruct c.
Qed.

Lemma leb_ltb_false (a b : float) : (a <=? b) = true -> (b <? a) = false.
Proof.
  rewrite ltb_spec, leb_spec. unfold SFltb, SFleb.
  destruct (SFcompare (Prim2SF a) (Prim2SF b)) as [c|] eqn:Hc; [|discriminate].
  rewrite (SFcompare_antisym _ _ _ Hc). now destruct c.
Qed.

Lemma leb_false_nonzero (h : float) : (h <=? 0) = false -> (h =? 0) = false.
Proof.
  rewrite leb_spec, eqb_spec. unfold SFleb, SFeqb.
  now destruct (SFcompare _ _) as [[| |]|].
Qed.

Lemma ltb_nonzero (h : float) : (0 <? h) = true -> (h =? 0) = false.
Proof. intros H. apply leb_false_nonzero. now apply ltb_leb_false. Qed.

(** The divisions of a run that passed the first check do not raise. *)
Lemma truediv_nonzero (x h : float) :
  (h =? 0) = false -> truediv x h = Ok (x / h).
Proof. intros H. cbn. unfold float_truediv. now rewrite H. Qed.

(** [int] of a finite non-negative float is its floor. *)
Lemma int_of_nonneg (q : float) :
  sign_ok false (Prim2SF q) -> finite_sf (Prim2SF q) ->
  exists n, int_of_float q = Ok n /\ floor_of_float q = Ok n /\ (0 <= n)%Z.
Proof.
  unfold int_of_float, floor_of_float.
  destruct (Prim2SF q) as [s|s| |s m e]; cbn; try contradiction; intros Hs _.
  - exists 0%Z. repeat split; lia.
  - subst s. cbn. eexists. repeat split. apply Z.shiftl_nonneg. lia.
Qed.

Lemma int_of_nonpos (q : float) :
  sign_ok true (Prim2SF q) -> finite_sf (Prim2SF q) ->
  exists n, int_of_float q = Ok n /\ (n <= 0)%Z.
Proof.
  unfold int_of_float.
  destruct (Prim2SF q) as [s|s| |s m e]; cbn; try contradiction; intros Hs _.
  - exists 0%Z. split; [reflexivity|lia].
  - subst s. cbn. eexists. split; [reflexivity|].
    assert (0 <= Z.shiftl (Zpos m) e)%Z by (apply Z.shiftl_nonneg; lia). lia.
Qed.

(** A float at most 10000 whose sign bit is clear is finite, and its
    integer part is at most 10000. *)
Lemma leb_10000_finite (q : float) :
  sign_ok false (Prim2SF q) -> (q <=? 10000) = true -> finite_sf (Prim2SF q).
Proof.
  rewrite leb_spec, Prim2SF_10000. unfold SFleb.
  destruct (Prim2SF q) as [s|s| |s m e];
    cbn [sign_ok finite_sf SFcompare]; auto; try discriminate.
  intros ->. discriminate.
Qed.

Lemma leb_10000_int (q : float) (n : Z) :
  sign_ok false (Prim2SF q) -> (q <=? 10000) = true ->
  int_of_float q = Ok n -> (n <= 10000)%Z.
Proof.
  rewrite leb_spec, Prim2SF_10000. unfold int_of_float.
  pose proof (Prim2SF_valid q) as Hv.
  destruct (Prim2SF q) as [s|s| |s m e]; cbn [sign_ok]; try discriminate.
  - intros _ _ [= <-]. lia.
  - intros -> Hle [= <-]. cbn [cond_Zopp].
    cbn [valid_binary] in Hv. apply bounded_inv in Hv as (Hr & Hu & _).
    unfold SFleb in Hle. cbn [SFcompare] in Hle.
    destruct (Z.compare_spec e (-39)) as [He|He|He]; try discriminate.
    + subst e.
      assert (Zpos m <= 5497558138880000)%Z.
      { revert Hle. rewrite compare_cont_Eq.
        destruct (Pos.compare_spec m 5497558138880000%positive) as [H|H|H];
          try discriminate; intros _.
        - subst m. apply Z.le_refl.
        - apply Z.lt_le_incl, Pos2Z.pos_lt_pos, H. }
      rewrite Z.shiftl_div_pow2 by lia.
      change (2 ^ (- (-39)))%Z with 549755813888%Z.
      apply Z.div_le_upper_bound; lia.
    + rewrite Z.shiftl_div_pow2 by lia.
      apply Z.div_le_upper_bound; [apply Z.pow_pos_nonneg; lia|].
      assert (2 ^ 40 <= 2 ^ (- e))%Z by (apply Z.pow_le_mono_r; lia).
      change (2 ^ 53)%Z with (2 ^ 40 * 8192)%Z in Hu. nia.
Qed.

(** On a valid input the quotient is computed without an exception, [int]
    accepts it, and the step count is its floor, between 0 and 10000. *)
Theorem valid_quotient (x0 x_target h : float) :
  valid_input x0 x_target h ->
  exists n,
    truediv (sub x_target x0) h = Ok ((x_target - x0) / h) /\
    int_of_float ((x_target - x0) / h) = Ok n /\
    floor_of_float ((x_target - x0) / h) = Ok n /\
    (0 <= n <= 10000)%Z.
Proof.
  intros (Hh & Hx & q & Hq & Hcap).
  change ((0 <? h) = true) in Hh. change ((x0 <? x_target) = true) in Hx.
  change ((q <=? float_of_int 10000) = true) in Hcap.
  rewrite float_of_int_10000 in Hcap.
  pose proof (truediv_nonzero (x_target - x0) h (ltb_nonzero h Hh)) as Hdiv.
  change (sub x_target x0) with (x_target - x0) in *.
  rewrite Hdiv in Hq. injection Hq as <-.
  pose proof (quotient_sign_gt x0 x_target h Hh Hx) as Hs.
  pose proof (leb_10000_finite _ Hs Hcap) as Hf.
  destruct (int_of_nonneg _ Hs Hf) as (n & Hn & Hfl & H0).
  exists n. repeat split; auto.
  eapply leb_10000_int; eauto.
Qed.

(** A valid input passes the three checks of [main]. *)
Theorem valid_input_validate (x0 x_target h : float) :
  valid_input x0 x_target h -> validate x0 x_target h = Ok None.
Proof.
  intros Hv. destruct (valid_quotient _ _ _ Hv) as (n & Hdiv & _).
  destruct Hv as (Hh & Hx & q & Hq & Hcap). unfold validate.
  rewrite Hdiv in Hq |- *. injection Hq as <-.
  change ((0 <? h) = true) in Hh. change ((x0 <? x_target) = true) in Hx.
  change (le h (of_int 0)) with (h <=? 0).
  change (le x_target x0) with (x_target <=? x0).
  rewrite (ltb_leb_false _ _ Hh), (ltb_leb_false _ _ Hx). cbn [bind].
  change (gt ?a ?b) with (b <? a).
  now rewrite (leb_ltb_false _ _ Hcap).
Qed.

Lemma is_finite_spec (x : float) : is_finite x = true <-> finite_sf (Prim2SF x).
Proof.
  unfold is_finite. rewrite ltb_spec, abs_spec.
  change (Prim2SF infinity) with (S754_infinity false).
  destruct (Prim2SF x) as [s|s| |s m e]; cbn; intuition discriminate.
Qed.

(** [eulers_method] has no check of its own: a zero step raises in the
    division of line 23. *)
Theorem eulers_method_zero_step (k x0 y0 x_target h : float) :
  (h =? 0) = true ->
  eulers_method k x0 y0 x_target h = Raise ZeroDivisionError.
Proof.
  intros Hh. unfold eulers_method.
  change (truediv (sub x_target x0) h) with (float_truediv (x_target - x0) h).
  unfold float_truediv. now rewrite Hh.
Qed.

(** With a positive step and a target at or before the start, the loops do
    not run, provided the quotient is finite. *)
Theorem eulers_method_no_step (k x0 y0 x_target h : float) :
  (0 <? h) = true -> (x_target <=? x0) = true ->
  is_finite ((x_target - x0) / h) = true ->
  eulers_method k x0 y0 x_target h = Ok ([], [x0], [y0]).
Proof.
  intros Hh Hx Hf. apply is_finite_spec in Hf.
  destruct (int_of_nonpos _ (quotient_sign_le x0 x_target h Hh Hx) Hf)
    as (n & Hn & Hle).
  rewrite eulers_method_unfold.
  change (sub x_target x0) with (x_target - x0).
  rewrite (truediv_nonzero _ _ (ltb_nonzero h Hh)). cbn [bind].
  change (@int_ float number) with int_of_float.
  rewrite Hn. cbn [bind].
  replace (Z.to_nat n) with 0%nat by lia. reflexivity.
Qed.

(** What [validate] answers, from the three tests in the order of the code. *)
Lemma validate_cases (x0 x_target h : float) :
  validate x0 x_target h =
  if h <=? 0 then Ok (Some InvalidStepSize)
  else if x_target <=? x0 then Ok (Some InvalidRange)
  else if 10000 <? (x_target - x0) / h then Ok (Some StepCountExceeded)
  else Ok None.
Proof.
  unfold validate.
  change (le h (of_int 0)) with (h <=? 0).
  change (le x_target x0) with (x_target <=? x0).
  destruct (h <=? 0) eqn:Hh; [reflexivity|].
  destruct (x_target <=? x0); [reflexivity|].
  change (sub x_target x0) with (x_target - x0).
  rewrite (truediv_nonzero _ _ (leb_false_nonzero h Hh)). cbn [bind].
  change (gt ((x_target - x0) / h) (of_int 10000))
    with (float_of_int 10000 <? (x_target - x0) / h).
  now rewrite float_of_int_10000.
Qed.

(** [main] shows a validation message exactly when [validate] gives it:
    what the [try] block produces is a result or the message of the
    [except] branch, never one of the three. *)
Lemma main_StError (k x0 y0 x_target h : float) (msg : string) :
  main k x0 y0 x_target h = Ok (StError msg) <->
  validate x0 x_target h = Ok (Some msg).
Proof.
  unfold main.
  destruct (validate x0 x_target h) as [[m|]|e]; cbn [bind].
  - split; intros [= ->]; reflexivity.
  - destruct (eulers_method k x0 y0 x_target h) as [[[df xs] ys]|e]; cbn [bind].
    + destruct (index_last xs); cbn [bind]; [|split; discriminate].
      destruct (index_last ys); cbn [bind]; split; discriminate.
    + split; discriminate.
  - split; discriminate.
Qed.

Lemma messages_distinct :
  InvalidStepSize <> InvalidRange /\
  InvalidStepSize <> StepCountExceeded /\
  InvalidRange <> StepCountExceeded.
Proof. repeat split; discriminate. Qed.

Lemma abs_nonzero (a : float) : (a =? 0) = false -> (abs a =? 0) = false.
Proof.
  rewrite !eqb_spec, abs_spec, Prim2SF_zero. unfold SFeqb.
  destruct (Prim2SF a) as [s|s| |s m e]; cbn [SFabs SFcompare]; auto.
Qed.

(** The two figures of lines 246-247: the division is guarded, so it never
    raises. *)
Theorem error_metrics_float (final_y analytical_y : float) :
  error_metrics final_y analytical_y =
  Ok (abs (analytical_y - final_y),
      if analytical_y =? 0 then 0
      else abs (analytical_y - final_y) / abs analytical_y * 100).
Proof.
  unfold error_metrics.
  change (ne analytical_y (of_int 0)) with (negb (analytical_y =? float_of_int 0)).
  rewrite float_of_int_0.
  destruct (analytical_y =? 0) eqn:Ha; cbn [negb bind]; [reflexivity|].
  change (absf analytical_y) with (abs analytical_y).
  rewrite (truediv_nonzero _ _ (abs_nonzero _ Ha)). cbn [bind].
  change (of_int 100) with (float_of_int 100). now rewrite float_of_int_100.
Qed.

Lemma sub_diag (x : float) : is_finite x = true -> x - x = 0.
Proof.
  intros Hx. apply is_finite_spec in Hx. apply Prim2SF_inj.
  now rewrite sub_spec, sub_diag_sf.
Qed.


Lemma is_inf_not_nan (r : float) : is_inf r = true -> is_nan r = false.
Proof.
  unfold is_inf, is_nan. rewrite !eqb_spec, abs_spec.
  change (Prim2SF infinity) with (S754_infinity false). unfold SFeqb.
  destruct (Prim2SF r) as [s|s| |s m e]; cbn [SFabs SFcompare];
    try discriminate; try (now destruct s); auto.
Qed.

(** [math.exp] raises [OverflowError] when the C function overflows on a
    finite argument. *)
Lemma math_exp_overflow (libm_exp : float -> float) (a : float) :
  is_finite a = true -> is_inf (libm_exp a) = true ->
  math_exp_of libm_exp a = Raise OverflowError.
Proof.
  intros Ha Hr. unfold math_exp_of.
  now rewrite (is_inf_not_nan _ Hr), Hr, Ha.
Qed.



Lemma exp_sample_overflows : exp_overflows exp_sample.
Proof. intros x Hx. unfold exp_sample. now rewrite Hx. Qed.


(** On a valid input [main] reaches the display with the results of
    [eulers_method] and its last point. *)
Theorem main_valid (k x0 y0 x_target h : float) :
  valid_input x0 x_target h ->
  exists num_steps df xs ys,
    int_of_float ((x_target - x0) / h) = Ok num_steps /\
    eulers_method k x0 y0 x_target h = Ok (df, xs, ys) /\
    main k x0 y0 x_target h =
      Ok (Calculated df xs ys (x_at x0 h (Z.to_nat num_steps))
                              (y_at k y0 h (Z.to_nat num_steps))).
Proof.
  intros Hv. destruct (valid_quotient _ _ _ Hv) as (n & Hq & Hn & _).
  exists n. unfold main. rewrite (valid_input_validate _ _ _ Hv). cbn [bind].
  rewrite eulers_method_unfold, Hq. cbn [bind].
  change (@int_ float number) with int_of_float. rewrite Hn. cbn [bind].
  do 3 eexists. split; [reflexivity|]. split; [reflexivity|].
  now rewrite !index_last_map_seq.
Qed.

End Binary64Program.

(** ** Facts about the exponential

    An enclosure of [e] from the series, and the bound behind the convergence
    of the method: [n] steps of size [h] within a span [L] are off the
    exponential by at most a constant times [h]. *)

Module RealFacts.
Import Series.
Local Open Scope R_scope.

Lemma Zfact_pos n : (0 < Zfact n)%Z.
Proof. induction n; cbn [Zfact]; lia. Qed.

Lemma INR_fact n : INR (fact n) = IZR (Zfact n).
Proof.
  induction n as [|n IH]; [reflexivity|].
  rewrite fact_simpl, mult_INR, IH. cbn [Zfact].
  now rewrite mult_IZR, <- INR_IZR_INZ.
Qed.

Lemma E1_S n : E1 1 (S n) = E1 1 n + / INR (fact (S n)).
Proof. unfold E1. cbn [sum_f_R0]. rewrite pow1. lra. Qed.

Lemma E1_rational n : E1 1 n = IZR (e_num n) / IZR (Zfact n).
Proof.
  induction n as [|n IH].
  - unfold E1. cbn. lra.
  - rewrite E1_S, IH, INR_fact. cbn [Zfact e_num].
    rewrite plus_IZR, !mult_IZR.
    pose proof (Zfact_pos n) as Hp. apply IZR_lt in Hp.
    assert (0 < IZR (Z.of_nat (S n))) by (apply IZR_lt; lia).
    field. split; lra.
Qed.

Lemma E1_growing : Un_growing (E1 1).
Proof.
  intros n. rewrite E1_S.
  assert (0 < / INR (fact (S n))) by (apply Rinv_0_lt_compat, INR_fact_lt_0).
  lra.
Qed.

Lemma E1_upper_decreasing n : (1 <= n)%nat -> E1_upper (S n) <= E1_upper n.
Proof.
  intros Hn. unfold E1_upper. rewrite E1_S, fact_simpl, mult_INR, S_INR.
  assert (Ha : 0 < INR (fact n)) by apply INR_fact_lt_0.
  assert (Hm : 1 <= INR n) by (change 1 with (INR 1); apply le_INR; lia).
  set (a := INR (fact n)) in *. set (m := INR n) in *.
  assert (Hi : 0 < / ((m + 1) * (m + 1) * a * m)).
  { apply Rinv_0_lt_compat. repeat apply Rmult_lt_0_compat; lra. }
  assert (He : / ((m + 1) * a) + / ((m + 1) * a * (m + 1))
               = / (a * m) - / ((m + 1) * (m + 1) * a * m)) by (field; lra).
  lra.
Qed.

Lemma E1_le_upper N n : (1 <= N)%nat -> E1 1 n <= E1_upper N.
Proof.
  intros HN.
  assert (Hself : forall m, (1 <= m)%nat -> E1 1 m <= E1_upper m).
  { intros m Hm. unfold E1_upper.
    assert (0 < / (INR (fact m) * INR m)).
    { apply Rinv_0_lt_compat, Rmult_lt_0_compat; [apply INR_fact_lt_0|].
      apply lt_0_INR. lia. }
    lra. }
  destruct (Nat.le_gt_cases n N) as [Hle|Hgt].
  - apply Rle_trans with (E1 1 N); [|now apply Hself].
    induction Hle as [|N' Hle IH]; [lra|].
    apply Rle_trans with (E1 1 N'); [|apply E1_growing].
    destruct (Nat.eq_dec N' 0) as [->|]; [replace n with 0%nat by lia; lra|].
    apply IH. lia.
  - apply Rle_trans with (E1_upper n); [apply Hself; lia|].
    assert (Hd : forall d, E1_upper (N + d) <= E1_upper N).
    { induction d as [|d IH]; [rewrite Nat.add_0_r; lra|].
      rewrite Nat.add_succ_r.
      apply Rle_trans with (E1_upper (N + d)); [apply E1_upper_decreasing; lia|exact IH]. }
    replace n with (N + (n - N))%nat by lia. apply Hd.
Qed.

Theorem exp_1_enclosure N :
  (1 <= N)%nat -> E1 1 N <= exp 1 <= E1_upper N.
Proof.
  intros HN. split.
  - apply (growing_ineq (E1 1)); [apply E1_growing | apply E1_cvg].
  - apply Rle_cv_lim with (Un := E1 1) (Vn := fun _ => E1_upper N).
    + intros n. now apply E1_le_upper.
    + apply E1_cvg.
    + intros eps Heps. exists 0%nat. intros n _.
      unfold R_dist. rewrite Rminus_diag, Rabs_R0. exact Heps.
Qed.

Lemma exp_1_bounds : 2.71828182 < exp 1 < 2.71828183.
Proof.
  pose proof (exp_1_enclosure 12 ltac:(lia)) as [Hl Hu].
  unfold E1_upper in Hu. rewrite E1_rational in Hl, Hu.
  rewrite INR_fact in Hu.
  rewrite (INR_IZR_INZ 12) in Hu. change (Z.of_nat 12) with 12%Z in Hu.
  assert (E : e_num 12 = 1302061345%Z) by (vm_compute; reflexivity).
  assert (Fc : Zfact 12 = 479001600%Z) by (vm_compute; reflexivity).
  rewrite E, Fc in Hl, Hu.
  lra.
Qed.

Lemma exp_pow (c : R) (n : nat) : exp c ^ n = exp (INR n * c).
Proof.
  induction n as [|n IH].
  - cbn. rewrite Rmult_0_l, exp_0. reflexivity.
  - rewrite S_INR. cbn [pow]. rewrite IH, <- exp_plus. f_equal. ring.
Qed.






(** Below the exponential: [n >= 1] Euler steps with [k h <> 0] and
    [1 + k h >= 0] stay strictly under the analytical value. *)
Lemma pow_lt_exp (c : R) (n : nat) :
  (1 <= n)%nat -> c <> 0 -> 0 <= 1 + c -> (1 + c) ^ n < exp (INR n * c).
Proof.
  intros Hn Hc Hp. rewrite <- exp_pow.
  pose proof (exp_ineq1 c Hc) as Hlt.
  induction Hn as [|n Hn IH]; [cbn; lra|].
  cbn [pow].
  assert (0 <= (1 + c) ^ n) by now apply pow_le.
  assert (0 < exp c) by apply exp_pos.
  nra.
Qed.



End RealFacts.

(** ** The program in exact arithmetic *)

Module ExactProgram.
Import Exact.
Local Open Scope R_scope.

Lemma x_at_exact (x0 h : R) (i : nat) : x_at x0 h i = x0 + INR i * h.
Proof.
  induction i as [|i IH]; [cbn; lra|].
  unfold x_at in *. rewrite Nat.iter_succ, IH, S_INR. cbn. lra.
Qed.

Lemma y_at_exact (k y0 h : R) (i : nat) : y_at k y0 h i = y0 * (1 + h * k) ^ i.
Proof.
  induction i as [|i IH]; [cbn; lra|].
  unfold y_at in *. rewrite Nat.iter_succ, IH. cbn. lra.
Qed.

Lemma valid_input_exact (x0 x_target h : R) :
  valid_input x0 x_target h <->
  0 < h /\ x0 < x_target /\ (x_target - x0) / h <= 10000.
Proof.
  unfold valid_input. cbn. unfold Rtruediv. split.
  - intros (Hh & Hx & q & Hq & Hcap).
    destruct (Rgt_dec h 0); [|discriminate].
    destruct (Rgt_dec x_target x0); [|discriminate].
    destruct (Req_dec_T h 0); [discriminate|]. injection Hq as <-.
    destruct (Rle_dec ((x_target - x0) / h) 10000); [|discriminate].
    repeat split; lra.
  - intros (Hh & Hx & Hcap).
    destruct (Rgt_dec h 0); [|lra].
    destruct (Rgt_dec x_target x0); [|lra].
    destruct (Req_dec_T h 0); [lra|].
    repeat split. exists ((x_target - x0) / h). split; [reflexivity|].
    destruct (Rle_dec ((x_target - x0) / h) 10000); [reflexivity | lra].
Qed.

(** Truncation is the floor on a non-negative real. *)
Lemma Rtrunc_nonneg (q : R) : 0 <= q -> Rtrunc q = Int_part q.
Proof. intros Hq. unfold Rtrunc. destruct (Rle_dec 0 q); [reflexivity | lra]. Qed.

Lemma Int_part_bounds (q : R) : IZR (Int_part q) <= q < IZR (Int_part q) + 1.
Proof. pose proof (base_Int_part q). lra. Qed.

Lemma Int_part_nonneg (q : R) : 0 <= q -> (0 <= Int_part q)%Z.
Proof.
  intros Hq. pose proof (Int_part_bounds q) as [_ Hu].
  apply Z.lt_succ_r. apply lt_IZR. rewrite succ_IZR. lra.
Qed.

Lemma Int_part_IZR (z : Z) : Int_part (IZR z) = z.
Proof.
  pose proof (Int_part_bounds (IZR z)) as [Hl Hu].
  apply le_IZR in Hl.
  assert (z < Int_part (IZR z) + 1)%Z by (apply lt_IZR; rewrite plus_IZR; lra).
  lia.
Qed.

Lemma quotient_pos (x0 x_target h : R) :
  0 < h -> x0 < x_target -> 0 < (x_target - x0) / h.
Proof. intros Hh Hx. apply Rdiv_lt_0_compat; lra. Qed.

Lemma INR_steps (x0 x_target h : R) :
  0 < h -> x0 < x_target ->
  INR (steps x0 x_target h) = IZR (Int_part ((x_target - x0) / h)).
Proof.
  intros Hh Hx. unfold steps.
  rewrite INR_IZR_INZ, Z2Nat.id; [reflexivity|].
  apply Int_part_nonneg. pose proof (quotient_pos x0 x_target h Hh Hx). lra.
Qed.

Theorem eulers_method_exact (k x0 y0 x_target h : R) :
  h <> 0 ->
  eulers_method k x0 y0 x_target h =
  let n := Z.to_nat (Rtrunc ((x_target - x0) / h)) in
  Ok (map (row_at k x0 y0 h) (seq 0 n),
      map (x_at x0 h) (seq 0 (S n)),
      map (y_at k y0 h) (seq 0 (S n))).
Proof.
  intros Hh. rewrite eulers_method_unfold. cbn. unfold Rtruediv.
  destruct (Req_dec_T h 0); [contradiction | reflexivity].
Qed.

Theorem final_point_exact (k x0 y0 x_target h : R) :
  0 < h -> x0 < x_target ->
  final_point k x0 y0 x_target h =
  Ok (x0 + INR (steps x0 x_target h) * h,
      y0 * (1 + h * k) ^ steps x0 x_target h).
Proof.
  intros Hh Hx. rewrite final_point_unfold. cbn. unfold Rtruediv.
  destruct (Req_dec_T h 0); [lra|]. cbn.
  rewrite Rtrunc_nonneg by (pose proof (quotient_pos x0 x_target h Hh Hx); lra).
  now rewrite x_at_exact, y_at_exact.
Qed.

(** The last point does not pass the target and is less than one step
    short of it. *)
Theorem final_x_bounds (x0 x_target h : R) :
  0 < h -> x0 < x_target ->
  let final_x := x0 + INR (steps x0 x_target h) * h in
  final_x <= x_target < final_x + h.
Proof.
  intros Hh Hx final_x. subst final_x. rewrite INR_steps by assumption.
  pose proof (Int_part_bounds ((x_target - x0) / h)) as [Hl Hu].
  set (n := IZR (Int_part ((x_target - x0) / h))) in *.
  assert (Hq : (x_target - x0) / h * h = x_target - x0) by (field; lra).
  split.
  - apply (Rmult_le_compat_r h) in Hl; lra.
  - apply (Rmult_lt_compat_r h) in Hu; lra.
Qed.

Lemma Rtrunc_nonpos (q : R) : q <= 0 -> (Rtrunc q <= 0)%Z.
Proof.
  intros Hq. unfold Rtrunc. destruct (Rle_dec 0 q) as [H0|H0].
  - replace q with 0 by lra. change 0 with (IZR 0). rewrite Int_part_IZR. lia.
  - assert (0 <= Int_part (- q))%Z by (apply Int_part_nonneg; lra). lia.
Qed.

Theorem eulers_method_no_step_exact (k x0 y0 x_target h : R) :
  0 < h -> x_target <= x0 ->
  eulers_method k x0 y0 x_target h = Ok ([], [x0], [y0]).
Proof.
  intros Hh Hx. rewrite eulers_method_exact by lra. cbv zeta.
  assert (Hq : (x_target - x0) / h <= 0).
  { apply Rmult_le_reg_r with h; [assumption|].
    replace ((x_target - x0) / h * h) with (x_target - x0) by (field; lra). lra. }
  pose proof (Rtrunc_nonpos _ Hq).
  replace (Z.to_nat (Rtrunc ((x_target - x0) / h))) with 0%nat by lia.
  reflexivity.
Qed.

Theorem eulers_method_zero_step_exact (k x0 y0 x_target : R) :
  eulers_method k x0 y0 x_target 0 = Raise ZeroDivisionError.
Proof.
  unfold eulers_method. cbn. unfold Rtruediv.
  destruct (Req_dec_T 0 0); [reflexivity | contradiction].
Qed.

(** Consecutive abscissas are exactly [h] apart. *)
Lemma x_at_spacing (x0 h : R) (i : nat) :
  x_at x0 h (S i) - x_at x0 h i = h.
Proof. rewrite !x_at_exact, S_INR. lra. Qed.

Theorem error_metrics_exact (final_y analytical_y : R) :
  error_metrics final_y analytical_y =
  Ok (Rabs (analytical_y - final_y),
      if Req_dec_T analytical_y 0 then 0
      else Rabs (analytical_y - final_y) / Rabs analytical_y * 100).
Proof.
  unfold error_metrics. cbn. unfold Rtruediv.
  destruct (Req_dec_T analytical_y 0) as [Ha|Ha]; [reflexivity|].
  destruct (Req_dec_T (Rabs analytical_y) 0) as [Hz|Hz]; [|reflexivity].
  exfalso. now apply (Rabs_no_R0 analytical_y).
Qed.

Theorem analytical_solution_exact (k x0 y0 x : R) :
  analytical_solution k x0 y0 x = Ok (y0 * exp (k * (x - x0))).
Proof. reflexivity. Qed.


(** In exact arithmetic no sample of the analytical curve raises. *)
Lemma comprehension_exact (k x0 y0 : R) (l : list R) :
  comprehension (analytical_solution k x0 y0) l
  = Ok (map (fun x => y0 * exp (k * (x - x0))) l).
Proof.
  induction l as [|x l IH]; [reflexivity|].
  cbn [comprehension map]. rewrite analytical_solution_exact, IH. reflexivity.
Qed.

Lemma analytical_curve_exact (k x0 y0 x_target : R) :
  analytical_curve k x0 y0 x_target =
  Ok (linspace x0 x_target 100,
      map (fun x => y0 * exp (k * (x - x0))) (linspace x0 x_target 100)).
Proof. unfold analytical_curve. now rewrite comprehension_exact. Qed.

(** The figures of the "Results" section for a run of [n] steps. *)
Theorem results_exact (k x0 y0 x_target h : R) (n : nat) :
  results k x0 y0 x_target
    (map (x_at x0 h) (seq 0 (S n))) (map (y_at k y0 h) (seq 0 (S n)))
  = let final_x := x0 + INR n * h in
    let final_y := y0 * (1 + h * k) ^ n in
    let analytical_y := y0 * exp (k * (final_x - x0)) in
    let error := Rabs (analytical_y - final_y) in
    Ok (final_x, final_y, analytical_y, error,
        if Req_dec_T analytical_y 0 then 0
        else error / Rabs analytical_y * 100).
Proof.
  unfold results. rewrite !index_last_map_seq. cbn [bind].
  rewrite analytical_solution_exact. cbn [bind].
  rewrite analytical_curve_exact. cbn [bind].
  rewrite step_traces_run. cbn [bind].
  rewrite error_metrics_exact. cbn [bind].
  now rewrite x_at_exact, y_at_exact.
Qed.


(** A unit span cut in [z] equal steps takes [z] steps. *)
Lemma steps_unit (z : Z) : (0 < z)%Z -> steps 0 1 (1 / IZR z) = Z.to_nat z.
Proof.
  intros Hz. unfold steps. apply IZR_lt in Hz.
  replace ((1 - 0) / (1 / IZR z)) with (IZR z) by (field; lra).
  now rewrite Int_part_IZR.
Qed.


Lemma INR_to_nat (z : Z) : (0 <= z)%Z -> INR (Z.to_nat z) = IZR z.
Proof. intros Hz. now rewrite INR_IZR_INZ, Z2Nat.id. Qed.

(** A run over the unit span in [z] equal steps. *)
Lemma eulers_method_unit (k y0 : R) (z : Z) :
  (0 < z)%Z ->
  eulers_method k 0 y0 1 (1 / IZR z) =
  let n := Z.to_nat z in
  let h := 1 / IZR z in
  Ok (map (row_at k 0 y0 h) (seq 0 n),
      map (x_at 0 h) (seq 0 (S n)),
      map (y_at k y0 h) (seq 0 (S n))).
Proof.
  intros Hz. pose proof (IZR_lt _ _ Hz) as Hr.
  assert (Hh : 0 < 1 / IZR z) by (apply Rdiv_lt_0_compat; lra).
  rewrite eulers_method_exact by lra. cbv zeta.
  rewrite Rtrunc_nonneg by (pose proof (quotient_pos 0 1 _ Hh); lra).
  fold (steps 0 1 (1 / IZR z)). now rewrite steps_unit.
Qed.




End ExactProgram.

(** ** More facts about binary64 arithmetic

    Rounding never produces a NaN, ordered comparison of two numbers is
    total, and the operations on zeros and infinities that the program
    meets. *)

Module Binary64More.
Import SF Binary64 Binary64Facts Binary64Program.
Local Open Scope float_scope.

Lemma iter_pos_invariant {A : Type} (P : A -> Prop) (f : A -> A) :
  (forall a, P a -> P (f a)) ->
  forall (n : positive) (a : A), P a -> P (SpecFloat.iter_pos f n a).
Proof.
  intros Hf. induction n as [n IH|n IH|]; intros a Ha; cbn [SpecFloat.iter_pos]; auto.
Qed.

Lemma shr_1_nonneg mrs : (0 <= shr_m mrs)%Z -> (0 <= shr_m (shr_1 mrs))%Z.
Proof.
  destruct mrs as [m r s]. cbn [shr_m]. intros Hm.
  destruct m as [|p|p]; [cbn; lia | | lia].
  destruct p; cbn; lia.
Qed.

Lemma shr_nonneg mrs e n : (0 <= shr_m mrs)%Z -> (0 <= shr_m (fst (shr mrs e n)))%Z.
Proof.
  intros Hm. unfold shr. destruct n; cbn [fst]; auto.
  apply (iter_pos_invariant (fun r => (0 <= shr_m r)%Z)); auto using shr_1_nonneg.
Qed.

Lemma shr_record_of_loc_m m l : shr_m (shr_record_of_loc m l) = m.
Proof. destruct l as [|[ | | ]]; reflexivity. Qed.

Lemma shr_fexp_nonneg m e l :
  (0 <= m)%Z -> (0 <= shr_m (fst (shr_fexp prec emax m e l)))%Z.
Proof.
  intros Hm. unfold shr_fexp. apply shr_nonneg. now rewrite shr_record_of_loc_m.
Qed.

Lemma round_nearest_even_nonneg m l :
  (0 <= m)%Z -> (0 <= round_nearest_even m l)%Z.
Proof.
  intros Hm. destruct l as [|[ | | ]]; cbn [round_nearest_even]; try lia.
  destruct (Z.even m); lia.
Qed.

(** Rounding a non-negative mantissa gives a zero, a finite float or an
    infinity. *)
Lemma binary_round_aux_not_nan s m e l :
  (0 <= m)%Z -> binary_round_aux prec emax s m e l <> S754_nan.
Proof.
  intros Hm. unfold binary_round_aux.
  pose proof (shr_fexp_nonneg m e l Hm) as H1.
  destruct (shr_fexp prec emax m e l) as [mrs' e']. cbn [fst] in H1.
  pose proof (shr_fexp_nonneg _ e' loc_Exact
                (round_nearest_even_nonneg _ (loc_of_shr_record mrs') H1)) as H2.
  destruct (shr_fexp prec emax _ e' loc_Exact) as [mrs'' e'']. cbn [fst] in H2.
  destruct (shr_m mrs'') as [|p|p]; [discriminate | | lia].
  destruct (Z.leb _ _); discriminate.
Qed.

Lemma binary_normalize_not_nan z e :
  binary_normalize prec emax z e false <> S754_nan.
Proof.
  destruct z as [|p|p]; cbn [binary_normalize]; [discriminate | |];
    unfold binary_round; destruct (shl_align _ _ _);
    apply binary_round_aux_not_nan; lia.
Qed.

(** The difference of two finite floats is not a NaN. *)
Lemma sub_finite_not_nan a b :
  finite_sf a -> finite_sf b -> SF64sub a b <> S754_nan.
Proof.
  destruct a as [sa|sa| |sa ma ea], b as [sb|sb| |sb mb eb];
    cbn [finite_sf]; try contradiction; intros _ _.
  - destruct sa, sb; discriminate.
  - discriminate.
  - discriminate.
  - rewrite sub_finite. apply binary_normalize_not_nan.
Qed.

(** Neither is the quotient of a number by a positive finite float. *)
Lemma div_positive_not_nan d sm m e :
  d <> S754_nan -> SF64div d (S754_finite sm m e) <> S754_nan.
Proof.
  intros Hd. destruct d as [sd|sd| |sd md ed]; try contradiction; try discriminate.
  unfold SF64div, SFdiv, SFdiv_core_binary.
  set (m' := match _ with Z0 => _ | Zpos _ => _ | Zneg _ => _ end).
  assert (Hm' : (0 <= m')%Z).
  { unfold m'. destruct (_ - _ - _)%Z; try lia.
    apply Z.shiftl_nonneg. lia. }
  pose proof (Z.div_pos m' (Zpos m) Hm' ltac:(lia)) as Hq.
  unfold Z.div in Hq. destruct (Z.div_eucl m' (Zpos m)) as [q r].
  now apply binary_round_aux_not_nan.
Qed.

(** Two numbers are always ordered. *)
Lemma SFcompare_defined a b :
  a <> S754_nan -> b <> S754_nan -> exists c, SFcompare a b = Some c.
Proof.
  intros Ha Hb.
  destruct a as [sa|sa| |sa ma ea], b as [sb|sb| |sb mb eb];
    try contradiction; cbn [SFcompare]; eauto.
Qed.

Lemma leb_false_ltb (a b : float) :
  Prim2SF a <> S754_nan -> Prim2SF b <> S754_nan ->
  (a <=? b) = false -> (b <? a) = true.
Proof.
  intros Ha Hb. rewrite leb_spec, ltb_spec. unfold SFleb, SFltb.
  destruct (SFcompare_defined _ _ Ha Hb) as [c Hc].
  rewrite Hc, (SFcompare_antisym _ _ _ Hc). now destruct c.
Qed.

Lemma ltb_false_leb (a b : float) :
  Prim2SF a <> S754_nan -> Prim2SF b <> S754_nan ->
  (a <? b) = false -> (b <=? a) = true.
Proof.
  intros Ha Hb. rewrite leb_spec, ltb_spec. unfold SFleb, SFltb.
  destruct (SFcompare_defined _ _ Ha Hb) as [c Hc].
  rewrite Hc, (SFcompare_antisym _ _ _ Hc). now destruct c.
Qed.

Lemma finite_not_nan (x : float) : is_finite x = true -> Prim2SF x <> S754_nan.
Proof.
  intros Hx. apply is_finite_spec in Hx. destruct (Prim2SF x); now cbn in Hx.
Qed.

Lemma is_nan_spec (x : float) : is_nan x = true <-> Prim2SF x = S754_nan.
Proof.
  unfold is_nan. rewrite eqb_spec. unfold SFeqb.
  destruct (Prim2SF x) as [s|s| |s m e]; cbn [SFcompare negb].
  - split; discriminate.
  - destruct s; split; discriminate.
  - split; reflexivity.
  - rewrite Z.compare_refl, compare_cont_Eq, Pos.compare_refl.
    destruct s; cbn; split; discriminate.
Qed.

Lemma is_inf_spec (x : float) :
  is_inf x = true <-> exists s, Prim2SF x = S754_infinity s.
Proof.
  unfold is_inf. rewrite eqb_spec, abs_spec.
  change (Prim2SF infinity) with (S754_infinity false). unfold SFeqb.
  destruct (Prim2SF x) as [s|s| |s m e]; cbn [SFabs SFcompare].
  - split; [discriminate | intros [? [=]]].
  - split; eauto.
  - split; [discriminate | intros [? [=]]].
  - split; [discriminate | intros [? [=]]].
Qed.

(** Every float is a NaN, an infinity or finite. *)
Lemma float_classes (x : float) :
  is_nan x = true \/ is_inf x = true \/ is_finite x = true.
Proof.
  rewrite is_nan_spec, is_inf_spec, is_finite_spec.
  destruct (Prim2SF x); cbn; eauto.
Qed.

(** The outcome of [eulers_method], by the class of the quotient. *)
Lemma eulers_method_by_class (k x0 y0 x_target h : float) :
  eulers_method k x0 y0 x_target h =
  if h =? 0 then Raise ZeroDivisionError
  else
    match Prim2SF ((x_target - x0) / h) with
    | S754_nan => Raise ValueError
    | S754_infinity _ => Raise OverflowError
    | _ =>
        n <- int_of_float ((x_target - x0) / h) ;;
        Ok (map (row_at k x0 y0 h) (seq 0 (Z.to_nat n)),
            map (x_at x0 h) (seq 0 (S (Z.to_nat n))),
            map (y_at k y0 h) (seq 0 (S (Z.to_nat n))))
    end.
Proof.
  rewrite eulers_method_unfold.
  change (truediv (sub x_target x0) h) with (float_truediv (x_target - x0) h).
  unfold float_truediv. destruct (h =? 0); [reflexivity|]. cbn [bind].
  change (@int_ float number) with int_of_float.
  unfold int_of_float at 1.
  destruct (Prim2SF ((x_target - x0) / h)) eqn:Hq; try reflexivity;
    unfold int_of_float; rewrite Hq; reflexivity.
Qed.

(** A NaN operand makes the quotient a NaN. *)
Lemma quotient_nan (x0 x_target h : float) :
  is_nan x0 = true \/ is_nan x_target = true \/ is_nan h = true ->
  Prim2SF ((x_target - x0) / h) = S754_nan.
Proof.
  rewrite !is_nan_spec, div_spec, sub_spec. intros [H|[H|H]]; rewrite H.
  - destruct (Prim2SF x_target), (Prim2SF h); reflexivity.
  - destruct (Prim2SF x0), (Prim2SF h); reflexivity.
  - destruct (SF64sub _ _); reflexivity.
Qed.

Lemma nan_leb_false (a b : float) :
  is_nan a = true \/ is_nan b = true -> (a <=? b) = false.
Proof.
  rewrite !is_nan_spec, leb_spec. unfold SFleb. intros [H|H]; rewrite H.
  - reflexivity.
  - destruct (Prim2SF a); reflexivity.
Qed.

Lemma nan_ltb_false (a b : float) :
  is_nan a = true \/ is_nan b = true -> (a <? b) = false.
Proof.
  rewrite !is_nan_spec, ltb_spec. unfold SFltb. intros [H|H]; rewrite H.
  - reflexivity.
  - destruct (Prim2SF a); reflexivity.
Qed.

Lemma nan_eqb_false (a b : float) : is_nan a = true -> (a =? b) = false.
Proof.
  rewrite is_nan_spec, eqb_spec. unfold SFeqb. intros H. now rewrite H.
Qed.

(** [main], once the three tests have passed. *)
Lemma main_after_validation (k x0 y0 x_target h : float) :
  validate x0 x_target h = Ok None ->
  main k x0 y0 x_target h =
  match eulers_method k x0 y0 x_target h with
  | Ok (df, xs, ys) =>
      match index_last xs, index_last ys with
      | Ok final_x, Ok final_y => Ok (Calculated df xs ys final_x final_y)
      | Raise e, _ => Ok (CalcError e)
      | _, Raise e => Ok (CalcError e)
      end
  | Raise e => Ok (CalcError e)
  end.
Proof.
  intros Hv. unfold main. rewrite Hv. cbn [bind].
  destruct (eulers_method k x0 y0 x_target h) as [[[df xs] ys]|e]; cbn [bind];
    [|reflexivity].
  destruct (index_last xs); cbn [bind]; [|reflexivity].
  destruct (index_last ys); reflexivity.
Qed.

(** Finite inputs that pass the three tests are valid inputs. *)
Lemma finite_validated_valid (x0 x_target h : float) :
  is_finite x0 = true -> is_finite x_target = true -> is_finite h = true ->
  validate x0 x_target h = Ok None -> valid_input x0 x_target h.
Proof.
  intros F0 Ft Fh. rewrite validate_cases.
  destruct (h <=? 0) eqn:Hh; [discriminate|].
  destruct (x_target <=? x0) eqn:Hx; [discriminate|].
  destruct (10000 <? (x_target - x0) / h) eqn:Hq; [discriminate|]. intros _.
  assert (Hh' : (0 <? h) = true).
  { apply leb_false_ltb; auto using finite_not_nan. }
  assert (Hx' : (x0 <? x_target) = true)
    by (apply leb_false_ltb; auto using finite_not_nan).
  assert (Hn : Prim2SF ((x_target - x0) / h) <> S754_nan).
  { rewrite div_spec, sub_spec.
    pose proof (proj1 (is_finite_spec h) Fh) as Hf.
    rewrite ltb_spec, Prim2SF_zero in Hh'. apply ltb_zero_positive in Hh'.
    destruct (Prim2SF h) as [s|s| |s m e]; try contradiction.
    apply div_positive_not_nan, sub_finite_not_nan; now apply is_finite_spec. }
  assert (Hcap : ((x_target - x0) / h <=? 10000) = true).
  { apply ltb_false_leb; auto. rewrite Prim2SF_10000. discriminate. }
  split; [exact Hh'|]. split; [exact Hx'|].
  exists ((x_target - x0) / h). split.
  - apply (truediv_nonzero (x_target - x0) h), ltb_nonzero, Hh'.
  - change (((x_target - x0) / h <=? float_of_int 10000) = true).
    now rewrite float_of_int_10000.
Qed.

(** *** Zeros *)

Lemma eqb_zero_spec (y : float) :
  (y =? 0) = true <-> exists s, Prim2SF y = S754_zero s.
Proof.
  rewrite eqb_spec, Prim2SF_zero. unfold SFeqb.
  destruct (Prim2SF y) as [s|s| |s m e]; cbn [SFcompare].
  - split; eauto.
  - destruct s; split; try discriminate; intros [? [=]].
  - split; [discriminate | intros [? [=]]].
  - destruct s; split; try discriminate; intros [? [=]].
Qed.

Lemma mul_finite_zero (a y : float) :
  is_finite a = true -> (y =? 0) = true -> (a * y =? 0) = true.
Proof.
  rewrite is_finite_spec, !eqb_zero_spec, mul_spec. intros Ha [s Hs]. rewrite Hs.
  destruct (Prim2SF a) as [sa|sa| |sa ma ea]; cbn in Ha |- *; try contradiction; eauto.
Qed.

Lemma mul_zero_finite (y r : float) :
  (y =? 0) = true -> is_finite r = true -> (y * r =? 0) = true.
Proof.
  rewrite is_finite_spec, !eqb_zero_spec, mul_spec. intros [s Hs] Hr. rewrite Hs.
  destruct (Prim2SF r) as [sa|sa| |sa ma ea]; cbn in Hr |- *; try contradiction; eauto.
Qed.

Lemma add_zero_zero (a b : float) :
  (a =? 0) = true -> (b =? 0) = true -> (a + b =? 0) = true.
Proof.
  rewrite !eqb_zero_spec, add_spec. intros [sa Ha] [sb Hb]. rewrite Ha, Hb.
  destruct sa, sb; cbn; eauto.
Qed.

Lemma abs_sub_zero_zero (a b : float) :
  (a =? 0) = true -> (b =? 0) = true -> abs (a - b) = 0.
Proof.
  rewrite !eqb_zero_spec. intros [sa Ha] [sb Hb].
  apply Prim2SF_inj. rewrite abs_spec, sub_spec, Ha, Hb.
  destruct sa, sb; reflexivity.
Qed.

(** With a zero ordinate and finite [k] and [h], a step leaves a zero. *)
Lemma y_at_zero (k y0 h : float) (i : nat) :
  is_finite k = true -> is_finite h = true -> (y0 =? 0) = true ->
  (y_at k y0 h i =? 0) = true.
Proof.
  intros Hk Hh Hy. induction i as [|i IH]; [exact Hy|].
  unfold y_at in *. rewrite Nat.iter_succ.
  set (y := Nat.iter i _ y0) in *.
  change (add y (mul h (mul k y))) with (y + h * (k * y)).
  apply add_zero_zero; [exact IH|].
  apply mul_finite_zero; [exact Hh|]. now apply mul_finite_zero.
Qed.

(** *** The accuracy note *)

Lemma accuracy_note_zero : Verdict.accuracy_note 0 = Success.
Proof. reflexivity. Qed.

Lemma accuracy_note_nan (r : float) :
  is_nan r = true -> Verdict.accuracy_note r = Info.
Proof.
  intros Hr. unfold Verdict.accuracy_note.
  now rewrite !nan_ltb_false by auto.
Qed.

(** With an infinite analytical value the relative error is a NaN. *)
Lemma relative_error_of_infinite (final_y analytical_y : float) :
  is_inf analytical_y = true ->
  is_nan (abs (analytical_y - final_y) / abs analytical_y * 100) = true.
Proof.
  rewrite is_inf_spec, is_nan_spec. intros [s Ha].
  rewrite mul_spec, div_spec, !abs_spec, sub_spec, Ha.
  destruct (Prim2SF final_y) as [sf|sf| |sf mf ef]; cbn [SF64sub SFsub SFabs];
    try reflexivity.
  destruct s, sf; reflexivity.
Qed.

Lemma infinite_nonzero (a : float) : is_inf a = true -> (a =? 0) = false.
Proof.
  rewrite is_inf_spec, eqb_spec, Prim2SF_zero. intros [s ->]. now destruct s.
Qed.

End Binary64More.

(** ** The whole handler and its first part *)

Section Handler.
Context {F : Type} {num : PyNumber F} {mth : PyMath F} {np : PyNumpy F}.

(** [calculate] goes on where [main] stops: the outcome of lines 126-143
    decides, and after a run the rest of the [try] block does. *)
Lemma calculate_after_main (k x0 y0 x_target h : F) :
  calculate k x0 y0 x_target h =
  match main k x0 y0 x_target h with
  | Ok (StError msg) => Ok (Rejected msg)
  | Ok (CalcError e) => Ok (Failed e)
  | Ok (Calculated df xs ys _ _) =>
      match results k x0 y0 x_target xs ys with
      | Ok (final_x, final_y, analytical_y, error, relative_error) =>
          Ok (Shown df xs ys final_x final_y analytical_y error relative_error)
      | Raise e => Ok (Failed e)
      end
  | Raise e => Raise e
  end.
Proof.
  unfold calculate, main.
  destruct (validate x0 x_target h) as [[msg|]|e]; cbn [bind]; try reflexivity.
  destruct (eulers_method k x0 y0 x_target h) as [[[df xs] ys]|e];
    cbn [bind]; [|reflexivity].
  unfold results.
  destruct (index_last xs) as [fx|e] eqn:Ex; cbn [bind]; [|reflexivity].
  destruct (index_last ys) as [fy|e] eqn:Ey; cbn [bind]; [|reflexivity].
  rewrite Ex, Ey. cbn [bind].
  destruct (analytical_solution k x0 y0 fx) as [a|e]; cbn [bind]; [|reflexivity].
  destruct (analytical_curve k x0 y0 x_target) as [c|e]; cbn [bind];
    [|reflexivity].
  destruct (step_traces xs ys) as [t|e]; cbn [bind]; [|reflexivity].
  destruct (error_metrics fy a) as [[err rel]|e]; reflexivity.
Qed.

Lemma main_Calculated_inv (k x0 y0 x_target h : F) df xs ys final_x final_y :
  main k x0 y0 x_target h = Ok (Calculated df xs ys final_x final_y) ->
  validate x0 x_target h = Ok None /\
  eulers_method k x0 y0 x_target h = Ok (df, xs, ys) /\
  index_last xs = Ok final_x /\ index_last ys = Ok final_y.
Proof.
  unfold main.
  destruct (validate x0 x_target h) as [[msg|]|e]; cbn [bind]; try discriminate.
  destruct (eulers_method k x0 y0 x_target h) as [[[df' xs'] ys']|e];
    cbn [bind]; [|discriminate].
  destruct (index_last xs') as [fx|e] eqn:Ex; cbn [bind]; [|discriminate].
  destruct (index_last ys') as [fy|e] eqn:Ey; cbn [bind]; [|discriminate].
  intros H. injection H as -> -> -> -> ->. auto.
Qed.

(** After a run the step traces raise nothing. *)
Lemma step_traces_after_run (k x0 y0 x_target h : F) df xs ys :
  eulers_method k x0 y0 x_target h = Ok (df, xs, ys) ->
  exists traces, step_traces xs ys = Ok traces.
Proof.
  intros H. destruct (eulers_method_inv _ _ _ _ _ _ _ _ H) as (n & _ & -> & -> & _).
  rewrite step_traces_run. eauto.
Qed.

(** The rest of the [try] block after a run, by what line 162 and lines
    165-166 do. *)
Lemma results_after_run (k x0 y0 x_target h : F) df xs ys final_x final_y :
  main k x0 y0 x_target h = Ok (Calculated df xs ys final_x final_y) ->
  results k x0 y0 x_target xs ys =
  (analytical_y <- analytical_solution k x0 y0 final_x ;;
   _ <- analytical_curve k x0 y0 x_target ;;
   '(error, relative_error) <- error_metrics final_y analytical_y ;;
   Ok (final_x, final_y, analytical_y, error, relative_error)).
Proof.
  intros H. destruct (main_Calculated_inv _ _ _ _ _ _ _ _ _ _ H)
    as (_ & He & Hx & Hy).
  destruct (step_traces_after_run _ _ _ _ _ _ _ _ He) as (t & Ht).
  unfold results. rewrite Hx, Hy. cbn [bind].
  destruct (analytical_solution k x0 y0 final_x); cbn [bind]; [|reflexivity].
  destruct (analytical_curve k x0 y0 x_target); cbn [bind]; [|reflexivity].
  now rewrite Ht.
Qed.

(** A sample that raises ends the comprehension of line 166. *)
Lemma comprehension_raise {A B : Type} (f : A -> result B) (l : list A)
  (a : A) (e : PyExc) :
  In a l -> f a = Raise e -> exists e', comprehension f l = Raise e'.
Proof.
  intros Hin Hf. induction l as [|b l IH]; [contradiction|].
  cbn [comprehension]. destruct Hin as [->|Hin].
  - rewrite Hf. cbn [bind]. eauto.
  - destruct (f b); cbn [bind]; [|eauto].
    destruct (IH Hin) as (e' & ->). cbn [bind]. eauto.
Qed.

(** The handler when line 162 raises. *)
Lemma calculate_line_162 (k x0 y0 x_target h : F) df xs ys final_x final_y e :
  main k x0 y0 x_target h = Ok (Calculated df xs ys final_x final_y) ->
  analytical_solution k x0 y0 final_x = Raise e ->
  calculate k x0 y0 x_target h = Ok (Failed e).
Proof.
  intros Hm Ha. rewrite calculate_after_main, Hm.
  rewrite (results_after_run _ _ _ _ _ _ _ _ _ _ Hm), Ha. reflexivity.
Qed.

(** The handler when a sample of line 166 raises. *)
Lemma calculate_line_166 (k x0 y0 x_target h : F) df xs ys final_x final_y x e :
  main k x0 y0 x_target h = Ok (Calculated df xs ys final_x final_y) ->
  In x (linspace x0 x_target 100) ->
  analytical_solution k x0 y0 x = Raise e ->
  exists e', calculate k x0 y0 x_target h = Ok (Failed e').
Proof.
  intros Hm Hin Hx. rewrite calculate_after_main, Hm.
  rewrite (results_after_run _ _ _ _ _ _ _ _ _ _ Hm).
  destruct (analytical_solution k x0 y0 final_x); cbn [bind]; [|eauto].
  unfold analytical_curve.
  destruct (comprehension_raise _ _ _ _ Hin Hx) as (e' & ->). cbn [bind]. eauto.
Qed.


End Handler.

Module Binary64Handler.
Import SF Binary64 Binary64Facts Binary64Program Binary64More.
Local Open Scope float_scope.



(** The handler on a run whose analytical value is defined and whose curve
    is sampled without an exception: the figures it shows. *)
Lemma calculate_shown (libm_exp : float -> float)
  (np_linspace : float -> float -> nat -> list float)
  (k x0 y0 x_target h : float) df xs ys final_x final_y r curve :
  main k x0 y0 x_target h = Ok (Calculated df xs ys final_x final_y) ->
  math_exp_of libm_exp (k * (final_x - x0)) = Ok r ->
  analytical_curve (mth := math libm_exp) (np := numpy np_linspace)
    k x0 y0 x_target = Ok curve ->
  calculate (mth := math libm_exp) (np := numpy np_linspace) k x0 y0 x_target h
  = Ok (Shown df xs ys final_x final_y (y0 * r)
          (abs (y0 * r - final_y))
          (if y0 * r =? 0 then 0
           else abs (y0 * r - final_y) / abs (y0 * r) * 100)).
Proof.
  intros Hm Hr Hc. rewrite calculate_after_main, Hm.
  rewrite (results_after_run _ _ _ _ _ _ _ _ _ _ Hm).
  unfold analytical_solution.
  change (@math_exp float (math libm_exp)) with (math_exp_of libm_exp).
  change (mul k (sub final_x x0)) with (k * (final_x - x0)).
  rewrite Hr. cbn [bind]. rewrite Hc. cbn [bind].
  change (mul y0 r) with (y0 * r).
  rewrite error_metrics_float. reflexivity.
Qed.





End Binary64Handler.

(** ** More on the program in exact arithmetic *)

Module ExactMore.
Import Exact ExactProgram.
Local Open Scope R_scope.

(** A run over the reals returns the closed form whenever both [h] and
    [x_target - x0] point the same way. *)
Lemma run_exact (k x0 y0 x_target h : R) :
  0 < (x_target - x0) / h ->
  let n := steps x0 x_target h in
  eulers_method k x0 y0 x_target h =
    Ok (map (row_at k x0 y0 h) (seq 0 n),
        map (x_at x0 h) (seq 0 (S n)),
        map (y_at k y0 h) (seq 0 (S n))) /\
  final_point k x0 y0 x_target h = Ok (x0 + INR n * h, y0 * (1 + h * k) ^ n) /\
  INR n <= (x_target - x0) / h < INR n + 1.
Proof.
  intros Hq n.
  assert (Hh : h <> 0).
  { intros ->. unfold Rdiv in Hq. rewrite Rinv_0, Rmult_0_r in Hq. lra. }
  assert (Hn : INR n = IZR (Int_part ((x_target - x0) / h))).
  { unfold n, steps. apply INR_to_nat, Int_part_nonneg. lra. }
  split; [|split].
  - rewrite eulers_method_exact by assumption. cbv zeta.
    now rewrite Rtrunc_nonneg by lra.
  - rewrite final_point_unfold. cbn. unfold Rtruediv.
    destruct (Req_dec_T h 0); [contradiction|]. cbn.
    rewrite Rtrunc_nonneg by lra. fold (steps x0 x_target h). fold n.
    now rewrite x_at_exact, y_at_exact.
  - rewrite Hn. apply Int_part_bounds.
Qed.

Lemma quotient_pos_backward (x0 x_target h : R) :
  h < 0 -> x_target < x0 -> 0 < (x_target - x0) / h.
Proof.
  intros Hh Hx. replace ((x_target - x0) / h) with ((x0 - x_target) / (- h)).
  - apply Rdiv_lt_0_compat; lra.
  - field. lra.
Qed.

Lemma Rabs_pow_le_1 (c : R) (i : nat) : Rabs c <= 1 -> Rabs (c ^ i) <= 1.
Proof.
  intros Hc. rewrite <- RPow_abs.
  replace 1 with (1 ^ i) by apply pow1.
  apply pow_incr. split; [apply Rabs_pos | exact Hc].
Qed.

End ExactMore.

(** * The claims of spec.md, on the code *)

Module Claims.
Import SF Exact Binary64.
Local Open Scope float_scope.

(** The input of the scenario of spec.md, section 8. *)
Lemma valid_scenario : valid_input (F := float) 0 1 0.1.
Proof.
  repeat split. exists (1 / 0.1). split; vm_compute; reflexivity.
Qed.

Lemma valid_scenario_exact : valid_input 0%R 1%R (1 / 10)%R.
Proof. apply ExactProgram.valid_input_exact. lra. Qed.

(** ** C1 *)

(** C1, as stated, fails on binary64: with [x0 = 1e16], [h = 1] and
    [x_target = 1e16 + 2] the input is valid and two steps are taken, but
    [1e16 + 1] rounds to [1e16], so the abscissas do not increase. *)
Lemma C1_counterexample :
  valid_input (F := float) 1e16 10000000000000002 1 /\
  exists df ys,
    eulers_method 1 1e16 1 10000000000000002 1 = Ok (df, [1e16; 1e16; 1e16], ys) /\
    strictly_increasing [1e16; 1e16; 1e16] = false.
Proof.
  split.
  - repeat split. exists 2. split; vm_compute; reflexivity.
  - do 2 eexists. split; vm_compute; reflexivity.
Qed.

(** C1 (amended): for every valid input the run starts at [(x0, y0)] and
    every step [i < num_steps] satisfies [slope_i = k * y_i],
    [x_{i+1} = x_i + h] and [y_{i+1} = y_i + h * slope_i], each operation
    being the binary64 one; in exact arithmetic the same holds and the
    abscissas are strictly increasing, exactly [h] apart. *)
Theorem C1_euler_recurrence :
  (forall k x0 y0 x_target h : float,
     valid_input x0 x_target h ->
     exists num_steps df xs ys,
       int_ ((x_target - x0) / h) = Ok num_steps /\
       eulers_method k x0 y0 x_target h = Ok (df, xs, ys) /\
       euler_recurrence k x0 y0 h (Z.to_nat num_steps) df xs ys) /\
  (forall k x0 y0 x_target h : R,
     valid_input x0 x_target h ->
     exists df xs ys,
       let n := Z.to_nat (Int_part ((x_target - x0) / h)) in
       eulers_method k x0 y0 x_target h = Ok (df, xs, ys) /\
       euler_recurrence k x0 y0 h n df xs ys /\
       forall i xi xi', (i < n)%nat ->
         index xs i = Ok xi -> index xs (i + 1) = Ok xi' ->
         (xi < xi' /\ xi' - xi = h)%R).
Proof.
  split.
  - intros k x0 y0 x_target h Hv.
    destruct (Binary64Program.valid_quotient _ _ _ Hv) as (n & Hq & Hn & _).
    destruct (eulers_method_run k x0 y0 x_target h _ n Hq Hn)
      as (df & xs & ys & Hrun & _ & _ & _ & Hrec).
    exists n, df, xs, ys. auto.
  - intros k x0 y0 x_target h Hv.
    apply ExactProgram.valid_input_exact in Hv as (Hh & Hx & _).
    pose proof (ExactProgram.quotient_pos x0 x_target h Hh Hx) as Hq.
    assert (Hdiv : truediv (sub x_target x0) h = Ok ((x_target - x0) / h)%R).
    { cbn. unfold Exact.Rtruediv. destruct (Req_dec_T h 0); [lra | reflexivity]. }
    assert (Hint : int_ ((x_target - x0) / h)%R = Ok (Int_part ((x_target - x0) / h))).
    { cbn. now rewrite ExactProgram.Rtrunc_nonneg by lra. }
    destruct (eulers_method_run k x0 y0 x_target h _ _ Hdiv Hint)
      as (df & xs & ys & Hrun & _ & _ & _ & Hrec).
    exists df, xs, ys. cbv zeta. split; [assumption|]. split; [assumption|].
    intros i xi xi' Hi H0 H1.
    destruct Hrec as (_ & _ & Hrec).
    destruct (Hrec i Hi) as (a & b & Ha & _ & Ha' & _).
    rewrite Ha in H0. rewrite Ha' in H1.
    injection H0 as <-. injection H1 as <-. cbn. split; lra.
Qed.

Lemma C1_witness :
  (exists num_steps df xs ys,
     int_ ((1 - 0) / 0.1) = Ok num_steps /\
     eulers_method 1 0 1 1 0.1 = Ok (df, xs, ys) /\
     euler_recurrence 1 0 1 0.1 (Z.to_nat num_steps) df xs ys) /\
  (exists df xs ys,
     let n := Z.to_nat (Int_part ((1 - 0) / (1 / 10))) in
     eulers_method 1%R 0%R 1%R 1%R (1 / 10)%R = Ok (df, xs, ys) /\
     euler_recurrence 1%R 0%R 1%R (1 / 10)%R n df xs ys /\
     forall i xi xi', (i < n)%nat ->
       index xs i = Ok xi -> index xs (i + 1) = Ok xi' ->
       (xi < xi' /\ xi' - xi = 1 / 10)%R).
Proof.
  split.
  - exact (proj1 C1_euler_recurrence 1 0 1 1 0.1 valid_scenario).
  - exact (proj2 C1_euler_recurrence 1%R 0%R 1%R 1%R (1 / 10)%R
             valid_scenario_exact).
Defined.

(** ** C2 *)

(** C2: for every valid input [eulers_method] returns a table of
    [num_steps] rows and two coordinate lists of [num_steps + 1] entries,
    where [num_steps] is [int] of the quotient [(x_target - x0) / h] and
    equals its floor (the quotient is not negative); it lies between 0 and
    10000. *)
Theorem C2_lengths (k x0 y0 x_target h : float) :
  valid_input x0 x_target h ->
  exists num_steps df xs ys,
    int_ ((x_target - x0) / h) = Ok num_steps /\
    floor_of_float ((x_target - x0) / h) = Ok num_steps /\
    (0 <= num_steps <= 10000)%Z /\
    eulers_method k x0 y0 x_target h = Ok (df, xs, ys) /\
    List.length df = Z.to_nat num_steps /\
    List.length xs = S (Z.to_nat num_steps) /\
    List.length ys = S (Z.to_nat num_steps).
Proof.
  intros Hv.
  destruct (Binary64Program.valid_quotient _ _ _ Hv) as (n & Hq & Hn & Hfl & Hb).
  destruct (eulers_method_run k x0 y0 x_target h _ n Hq Hn)
    as (df & xs & ys & Hrun & Hd & Hxs & Hys & _).
  exists n, df, xs, ys. auto 10.
Qed.

Lemma C2_witness :
  exists num_steps df xs ys,
    int_ ((1 - 0) / 0.1) = Ok num_steps /\
    floor_of_float ((1 - 0) / 0.1) = Ok num_steps /\
    (0 <= num_steps <= 10000)%Z /\
    eulers_method 1 0 1 1 0.1 = Ok (df, xs, ys) /\
    List.length df = Z.to_nat num_steps /\
    List.length xs = S (Z.to_nat num_steps) /\
    List.length ys = S (Z.to_nat num_steps).
Proof. exact (C2_lengths 1 0 1 1 0.1 valid_scenario). Defined.

(** ** C3 *)

(** C3, as stated, fails: with [h = 0] and [x_target = x0 = 0] the condition
    [x_target <= x0] holds, yet the message is the one of the step size, not
    the one of the range; the first failing test decides. *)
Lemma C3_counterexample :
  le (F := float) 0 0 = true /\
  main 1 0 1 0 0 = Ok (StError InvalidStepSize) /\
  main 1 0 1 0 0 <> Ok (StError InvalidRange).
Proof. repeat split. discriminate. Qed.

(** C3 (amended): the three tests run in the order of the code and the first
    that fails decides: [main] shows [InvalidStepSize] exactly when [h <= 0];
    [InvalidRange] exactly when [h <= 0] is false and [x_target <= x0];
    [StepCountExceeded] exactly when both are false and
    [(x_target - x0) / h > 10000].  The three messages differ, the tests
    themselves never raise, and a rejected input yields the message alone: no
    table and no trajectory. *)
Theorem C3_validation (k x0 y0 x_target h : float) :
  (main k x0 y0 x_target h = Ok (StError InvalidStepSize) <->
     (h <=? 0) = true) /\
  (main k x0 y0 x_target h = Ok (StError InvalidRange) <->
     (h <=? 0) = false /\ (x_target <=? x0) = true) /\
  (main k x0 y0 x_target h = Ok (StError StepCountExceeded) <->
     (h <=? 0) = false /\ (x_target <=? x0) = false /\
     (10000 <? (x_target - x0) / h) = true) /\
  (InvalidStepSize <> InvalidRange /\
   InvalidStepSize <> StepCountExceeded /\
   InvalidRange <> StepCountExceeded) /\
  (exists v, validate x0 x_target h = Ok v) /\
  (forall msg, validate x0 x_target h = Ok (Some msg) ->
     main k x0 y0 x_target h = Ok (StError msg)).
Proof.
  pose proof Binary64Program.messages_distinct as (D1 & D2 & D3).
  assert (Hmsg : forall msg, validate x0 x_target h = Ok (Some msg) ->
                   main k x0 y0 x_target h = Ok (StError msg))
    by (intros msg Hm; now apply Binary64Program.main_StError).
  rewrite !Binary64Program.main_StError.
  revert Hmsg. generalize (main k x0 y0 x_target h).
  rewrite Binary64Program.validate_cases. intros r Hmsg.
  destruct (h <=? 0); [|destruct (x_target <=? x0);
    [|destruct (10000 <? (x_target - x0) / h)]];
    repeat match goal with
           | |- _ /\ _ => split
           | |- _ <-> _ => split; intros
           | |- exists _, _ => eexists; reflexivity
           end;
    try assumption; try reflexivity; try (exfalso; intuition congruence);
    try (intuition congruence).
Qed.

(** ** C4 *)

(** C4, as stated, fails on binary64: for [x0 = 0], [x_target = 2] and
    [h = 0.1] the input is valid, 20 steps are taken, and the accumulated
    abscissa is 2.0000000000000004, beyond the target. *)
Lemma C4_counterexample :
  valid_input (F := float) 0 2 0.1 /\
  exists final_x final_y,
    final_point 1 0 1 2 0.1 = Ok (final_x, final_y) /\
    gt final_x 2 = true.
Proof.
  split.
  - repeat split. exists (2 / 0.1). split; vm_compute; reflexivity.
  - do 2 eexists. split; vm_compute; reflexivity.
Qed.

(** C4 (amended): in exact arithmetic, for every valid input the last
    abscissa is [x0 + num_steps * h] with [num_steps] the floor of
    [(x_target - x0) / h]; it does not exceed [x_target] and is short of it by
    less than [h]. *)
Theorem C4_no_overshoot_exact (k x0 y0 x_target h : R) :
  valid_input x0 x_target h ->
  exists (final_x final_y : R) (num_steps : nat),
    final_point k x0 y0 x_target h = Ok (final_x, final_y) /\
    INR num_steps = IZR (Int_part ((x_target - x0) / h)) /\
    (final_x = x0 + INR num_steps * h)%R /\
    (final_x <= x_target < final_x + h)%R.
Proof.
  intros Hv. apply ExactProgram.valid_input_exact in Hv as (Hh & Hx & _).
  do 2 eexists. exists (Exact.steps x0 x_target h).
  split; [now apply ExactProgram.final_point_exact|].
  split; [now apply ExactProgram.INR_steps|].
  split; [reflexivity|].
  now apply ExactProgram.final_x_bounds.
Qed.

Lemma C4_witness :
  exists (final_x final_y : R) (num_steps : nat),
    final_point 1%R 0%R 1%R 1%R (1 / 10)%R = Ok (final_x, final_y) /\
    INR num_steps = IZR (Int_part ((1 - 0) / (1 / 10))) /\
    (final_x = 0 + INR num_steps * (1 / 10))%R /\
    (final_x <= 1 < final_x + 1 / 10)%R.
Proof.
  exact (C4_no_overshoot_exact 1%R 0%R 1%R 1%R (1 / 10)%R valid_scenario_exact).
Defined.

(** ** C5 *)

(** C5, as stated, fails: it is not true that, whatever C library [exp] that
    overflows from 710 on stands behind [math.exp], [analytical_solution]
    returns a value on all finite inputs.  [math.exp] raises [OverflowError]
    where the spec expects an infinity: for [k = 1], [x0 = 0], [y0 = 1] and
    [x = 1000] nothing is returned. *)
Lemma C5_counterexample :
  ~ (forall libm_exp : float -> float,
       exp_overflows libm_exp ->
       forall k x0 y0 x : float,
         is_finite k = true -> is_finite x0 = true ->
         is_finite y0 = true -> is_finite x = true ->
         exists v, analytical_solution (mth := math libm_exp) k x0 y0 x = Ok v).
Proof.
  intros H.
  destruct (H exp_sample Binary64Program.exp_sample_overflows 1 0 1 1000
              eq_refl eq_refl eq_refl eq_refl) as [v Hv].
  discriminate.
Qed.

(** C5 (amended): in exact arithmetic [analytical_solution] is total.  On
    binary64 it returns [y0 * r] whenever [math.exp] returns [r], so an
    infinity or a NaN of the product propagates as it is; but when the C
    library's [exp] overflows on a finite argument [k * (x - x0)], [math.exp]
    raises [OverflowError] and so does [analytical_solution], as at [k = 1],
    [x0 = 0], [y0 = 1], [x = 1000].  In [main] the exception lands in the
    [except] branch of the handler: when it is raised at the last abscissa
    (line 162) the handler ends with that [OverflowError], as for [k = 800],
    [x0 = 0], [y0 = 1], [x_target = 1], [h = 0.1]; when it is raised at a
    sample of the analytical curve (line 166) the handler ends in the same
    branch. *)
Theorem C5_analytical_totality (libm_exp : float -> float)
  (np_linspace : float -> float -> nat -> list float) :
  (forall k x0 y0 x : R, exists v, analytical_solution k x0 y0 x = Ok v) /\
  (forall k x0 y0 x r : float,
     math_exp_of libm_exp (k * (x - x0)) = Ok r ->
     analytical_solution (mth := math libm_exp) k x0 y0 x = Ok (y0 * r)) /\
  (forall k x0 y0 x : float,
     is_finite (k * (x - x0)) = true ->
     is_inf (libm_exp (k * (x - x0))) = true ->
     analytical_solution (mth := math libm_exp) k x0 y0 x = Raise OverflowError) /\
  (exp_overflows libm_exp ->
     analytical_solution (mth := math libm_exp) 1 0 1 1000 = Raise OverflowError) /\
  (forall (k x0 y0 x_target h : float) df xs ys final_x final_y,
     main k x0 y0 x_target h = Ok (Calculated df xs ys final_x final_y) ->
     is_finite (k * (final_x - x0)) = true ->
     is_inf (libm_exp (k * (final_x - x0))) = true ->
     calculate (mth := math libm_exp) (np := numpy np_linspace)
       k x0 y0 x_target h = Ok (Failed OverflowError)) /\
  (forall (k x0 y0 x_target h : float) df xs ys final_x final_y x,
     main k x0 y0 x_target h = Ok (Calculated df xs ys final_x final_y) ->
     In x (np_linspace x0 x_target 100%nat) ->
     is_finite (k * (x - x0)) = true ->
     is_inf (libm_exp (k * (x - x0))) = true ->
     exists e,
       calculate (mth := math libm_exp) (np := numpy np_linspace)
         k x0 y0 x_target h = Ok (Failed e)) /\
  (exp_overflows libm_exp ->
     calculate (mth := math libm_exp) (np := numpy np_linspace) 800 0 1 1 0.1
       = Ok (Failed OverflowError)).
Proof.
  split; [intros; eexists; apply ExactProgram.analytical_solution_exact|].
  split.
  { intros k x0 y0 x r Hr. unfold analytical_solution.
    change (@math_exp float (math libm_exp)) with (math_exp_of libm_exp).
    change (mul k (sub x x0)) with (k * (x - x0)). now rewrite Hr. }
  assert (Hraise : forall k x0 y0 x : float,
    is_finite (k * (x - x0)) = true ->
    is_inf (libm_exp (k * (x - x0))) = true ->
    analytical_solution (mth := math libm_exp) k x0 y0 x = Raise OverflowError).
  { intros k x0 y0 x Ha Hr. unfold analytical_solution.
    change (@math_exp float (math libm_exp)) with (math_exp_of libm_exp).
    change (mul k (sub x x0)) with (k * (x - x0)).
    now rewrite Binary64Program.math_exp_overflow. }
  split; [exact Hraise|].
  split.
  { intros Ho. apply Hraise; [reflexivity|].
    change (1 * (1000 - 0)) with 1000. now rewrite (Ho 1000 eq_refl). }
  assert (H162 : forall (k x0 y0 x_target h : float) df xs ys final_x final_y,
    main k x0 y0 x_target h = Ok (Calculated df xs ys final_x final_y) ->
    is_finite (k * (final_x - x0)) = true ->
    is_inf (libm_exp (k * (final_x - x0))) = true ->
    calculate (mth := math libm_exp) (np := numpy np_linspace)
      k x0 y0 x_target h = Ok (Failed OverflowError)).
  { intros k x0 y0 x_target h df xs ys final_x final_y Hm Ha Hr.
    apply (calculate_line_162 _ _ _ _ _ _ _ _ _ _ _ Hm).
    now apply Hraise. }
  split; [exact H162|].
  split.
  { intros k x0 y0 x_target h df xs ys final_x final_y x Hm Hin Ha Hr.
    apply (calculate_line_166 (np := numpy np_linspace)
             _ _ _ _ _ _ _ _ _ _ x OverflowError Hm Hin).
    now apply Hraise. }
  intros Ho.
  assert (Hm : main 800 0 1 1 0.1 =
               Ok (Calculated (map (row_at 800 0 1 0.1) (seq 0 10))
                     (map (x_at 0 0.1) (seq 0 11))
                     (map (y_at 800 1 0.1) (seq 0 11))
                     (x_at 0 0.1 10) (y_at 800 1 0.1 10)))
    by (vm_compute; reflexivity).
  apply (H162 _ _ _ _ _ _ _ _ _ _ Hm); [vm_compute; reflexivity|].
  rewrite (Ho (800 * (x_at 0 0.1 10 - 0))) by (vm_compute; reflexivity).
  reflexivity.
Qed.

Lemma C5_witness :
  analytical_solution (mth := math exp_sample) 2 0 3 1 = Ok (3 * 1) /\
  analytical_solution (mth := math exp_sample) 1 0 1 1000 = Raise OverflowError /\
  analytical_solution (mth := math exp_sample) 2 0 1 500 = Raise OverflowError /\
  calculate (mth := math exp_sample) (np := numpy end_points) 800 0 1 1 0.1
    = Ok (Failed OverflowError).
Proof.
  split; [|split; [|split]].
  - exact (proj1 (proj2 (C5_analytical_totality exp_sample end_points))
             2 0 3 1 1 eq_refl).
  - exact (proj1 (proj2 (proj2 (proj2
             (C5_analytical_totality exp_sample end_points))))
             Binary64Program.exp_sample_overflows).
  - exact (proj1 (proj2 (proj2 (C5_analytical_totality exp_sample end_points)))
             2 0 1 500 eq_refl eq_refl).
  - exact (proj2 (proj2 (proj2 (proj2 (proj2 (proj2
             (C5_analytical_totality exp_sample end_points))))))
             Binary64Program.exp_sample_overflows).
Defined.

(** ** C6 *)



(** ** C7 *)

(** C7: the absolute error is [|exact_y - approx_y|]; the relative error is
    0 when [exact_y] is zero and [absolute / |exact_y| * 100] otherwise.  The
    division is evaluated only in the second case, where its divisor is not
    zero, so no [ZeroDivisionError] is raised.  On binary64 the test
    [exact_y != 0] takes [-0.0] for zero too. *)
Theorem C7_error_metrics :
  (forall approx_y exact_y : float,
     error_metrics approx_y exact_y =
     Ok (abs (exact_y - approx_y),
         if exact_y =? 0 then 0
         else abs (exact_y - approx_y) / abs exact_y * 100)) /\
  (forall approx_y exact_y : R,
     error_metrics approx_y exact_y =
     Ok (Rabs (exact_y - approx_y),
         if Req_dec_T exact_y 0 then 0
         else Rabs (exact_y - approx_y) / Rabs exact_y * 100)%R).
Proof.
  split;
    [exact Binary64Program.error_metrics_float
    | exact ExactProgram.error_metrics_exact].
Qed.

(** ** C8 *)

(** C8, as stated, fails in its third figure: the absolute error of the
    scenario is not 0.124540 to the six decimals shown.  With the double
    nearest to [e] for the analytical value, as the claim has it, or any
    double within two units in the last place of it, lines 246-247 compute
    an error below 0.1245394, which is shown as 0.124539; 0.124540 is the
    difference of the two rounded figures 2.718282 and 2.593742. *)
Lemma C8_counterexample :
  exists df xs ys final_y,
    eulers_method 1 0 1 1 0.1 = Ok (df, xs, ys) /\
    index_last ys = Ok final_y /\
    Forall (fun analytical_y =>
              exists error relative_error,
                error_metrics final_y analytical_y
                  = Ok (error, relative_error) /\
                (error <? 0.1245394) = true /\
                (0.1245395 <=? error) = false)
           (within_2ulp 2.718281828459045).
Proof.
  do 4 eexists.
  split; [vm_compute; reflexivity|]. split; [vm_compute; reflexivity|].
  unfold within_2ulp.
  repeat (apply Forall_cons;
          [do 2 eexists; split; [vm_compute; reflexivity|];
           split; vm_compute; reflexivity|]).
  apply Forall_nil.
Qed.

(** The analytical curve of the scenario, with the stand-ins for the two
    libraries. *)
Lemma scenario_curve :
  analytical_curve (mth := math exp_series) (np := numpy end_points) 1 0 1 1
  = Ok ([0; 1], [1; 2.718281828459045]).
Proof. vm_compute. reflexivity. Qed.

Lemma scenario_exp_near :
  exp_near exp_series 0.9999999999999999 2.718281828459045.
Proof. right. left. vm_compute. reflexivity. Qed.

(** C8 (amended): for [k = 1], [x0 = 0], [y0 = 1], [x_target = 1] and
    [h = 0.1] the run takes 10 steps.  On binary64 the last abscissa is
    0.9999999999999999 and the last ordinate 2.5937424601, shown as
    2.593742; when [math.exp] returns there a double within two units in the
    last place of 2.718281828459045 and the sampling of the curve raises
    nothing, the handler shows an analytical value that rounds to 2.718282,
    an absolute error between 0.1245393 and 0.1245394, shown as 0.124539
    (not 0.124540), and a relative error between 4.5815 and 4.5816 percent,
    shown as 4.58.  In exact arithmetic the last point is [(1, 1.1^10)], the
    analytical value there is [e], and the four figures round to 2.593742,
    2.718282, 0.124539 and 4.58. *)
Theorem C8_scenario (libm_exp : float -> float)
  (np_linspace : float -> float -> nat -> list float) :
  (forall curve,
     exp_near libm_exp 0.9999999999999999 2.718281828459045 ->
     analytical_curve (mth := math libm_exp) (np := numpy np_linspace) 1 0 1 1
       = Ok curve ->
     exists df xs ys analytical_y error relative_error,
       calculate (mth := math libm_exp) (np := numpy np_linspace) 1 0 1 1 0.1
         = Ok (Shown df xs ys 0.9999999999999999 2.5937424601
                 analytical_y error relative_error) /\
       eulers_method 1 0 1 1 0.1 = Ok (df, xs, ys) /\
       List.length df = 10%nat /\
       (2.5937415 <? 2.5937424601) = true /\
       (2.5937424601 <? 2.5937425) = true /\
       (2.7182815 <? analytical_y) = true /\
       (analytical_y <? 2.7182825) = true /\
       (0.1245393 <? error) = true /\ (error <? 0.1245394) = true /\
       (4.5815 <? relative_error) = true /\
       (relative_error <? 4.5816) = true) /\
  (exists df xs ys final_x final_y analytical_y error relative_error,
     eulers_method 1%R 0%R 1%R 1%R (1 / 10)%R = Ok (df, xs, ys) /\
     List.length df = 10%nat /\
     results 1%R 0%R 1%R 1%R xs ys
       = Ok (final_x, final_y, analytical_y, error, relative_error) /\
     final_x = 1%R /\
     final_y = ((1 + 1 / 10) ^ 10)%R /\
     analytical_y = exp 1 /\
     (Rabs (final_y - 2.593742) < 5 / 10000000)%R /\
     (Rabs (analytical_y - 2.718282) < 5 / 10000000)%R /\
     (Rabs (error - 0.124539) < 5 / 10000000)%R /\
     (Rabs (relative_error - 4.58) < 5 / 1000)%R /\
     (0.1245393 < error < 0.1245394)%R /\
     (4.5815 < relative_error < 4.5816)%R).
Proof.
  split.
  - intros curve Hexp Hcurve.
    assert (Hm : main 1 0 1 1 0.1 =
                 Ok (Calculated (map (row_at 1 0 1 0.1) (seq 0 10))
                       (map (x_at 0 0.1) (seq 0 11))
                       (map (y_at 1 1 0.1) (seq 0 11))
                       0.9999999999999999 2.5937424601))
      by (vm_compute; reflexivity).
    assert (He : eulers_method 1 0 1 1 0.1 =
                 Ok (map (row_at 1 0 1 0.1) (seq 0 10),
                     map (x_at 0 0.1) (seq 0 11),
                     map (y_at 1 1 0.1) (seq 0 11)))
      by (vm_compute; reflexivity).
    assert (Harg : 1 * (0.9999999999999999 - 0) = 0.9999999999999999)
      by (vm_compute; reflexivity).
    assert (Hr : math_exp_of libm_exp (1 * (0.9999999999999999 - 0))
                 = Ok (libm_exp 0.9999999999999999) /\
                 (2.7182815 <? 1 * libm_exp 0.9999999999999999) = true /\
                 (1 * libm_exp 0.9999999999999999 <? 2.7182825) = true /\
                 (0.1245393 <?
                    abs (1 * libm_exp 0.9999999999999999 - 2.5937424601)) = true /\
                 (abs (1 * libm_exp 0.9999999999999999 - 2.5937424601)
                    <? 0.1245394) = true /\
                 (4.5815 <?
                    (if 1 * libm_exp 0.9999999999999999 =? 0 then 0
                     else abs (1 * libm_exp 0.9999999999999999 - 2.5937424601)
                          / abs (1 * libm_exp 0.9999999999999999) * 100)) = true /\
                 ((if 1 * libm_exp 0.9999999999999999 =? 0 then 0
                   else abs (1 * libm_exp 0.9999999999999999 - 2.5937424601)
                        / abs (1 * libm_exp 0.9999999999999999) * 100)
                    <? 4.5816) = true).
    { rewrite Harg. unfold math_exp_of. cbv zeta.
      unfold exp_near, within_2ulp in Hexp. cbn [In] in Hexp.
      destruct Hexp as [H|[H|[H|[H|[H|[]]]]]]; rewrite <- H;
        (split; [vm_compute; reflexivity|]);
        (split; [vm_compute; reflexivity|]);
        (split; [vm_compute; reflexivity|]);
        (split; [vm_compute; reflexivity|]);
        (split; [vm_compute; reflexivity|]);
        (split; vm_compute; reflexivity). }
    destruct Hr as (Hr & Ha1 & Ha2 & He1 & He2 & Hr1 & Hr2).
    do 6 eexists.
    split; [exact (Binary64Handler.calculate_shown _ _ _ _ _ _ _ _ _ _ _ _ _
                     _ Hm Hr Hcurve)|].
    split; [exact He|].
    split; [reflexivity|].
    split; [vm_compute; reflexivity|]. split; [vm_compute; reflexivity|].
    split; [exact Ha1|]. split; [exact Ha2|].
    split; [exact He1|]. split; [exact He2|].
    split; [exact Hr1 | exact Hr2].
  - rewrite (ExactProgram.eulers_method_unit 1 1 10) by lia. cbv zeta.
    change (Z.to_nat 10) with 10%nat.
    do 8 eexists. split; [reflexivity|]. split; [reflexivity|].
    split; [apply ExactProgram.results_exact|]. cbv zeta.
    rewrite (INR_IZR_INZ 10). change (Z.of_nat 10) with 10%Z.
    replace (0 + 10 * (1 / 10))%R with 1%R by lra.
    replace (1 * (1 - 0))%R with 1%R by lra.
    replace (1 + 1 / 10 * 1)%R with (1 + 1 / 10)%R by lra.
    rewrite !Rmult_1_l.
    pose proof RealFacts.exp_1_bounds as [He1 He2].
    assert (Hy : ((1 + 1 / 10) ^ 10 = 25937424601 / 10000000000)%R) by field.
    rewrite Hy.
    assert (Hd : (0 < exp 1 - 25937424601 / 10000000000)%R) by lra.
    rewrite (Rabs_pos_eq (exp 1 - 25937424601 / 10000000000)) by lra.
    rewrite (Rabs_pos_eq (exp 1)) by lra.
    destruct (Req_dec_T (exp 1) 0) as [Hz|Hz]; [lra|].
    set (t := (/ exp 1)%R).
    assert (Ht : (/ 2.71828183 < t < / 2.71828182)%R).
    { unfold t. split; apply Rinv_lt_contravar; lra. }
    assert (Hr : ((exp 1 - 25937424601 / 10000000000) / exp 1 * 100
                  = 100 - 25937424601 / 100000000 * t)%R)
      by (unfold t; field; lra).
    rewrite Hr.
    repeat split; try reflexivity; try (apply Rabs_def1; lra); lra.
Qed.

Lemma C8_witness :
  exists df xs ys analytical_y error relative_error,
    calculate (mth := math exp_series) (np := numpy end_points) 1 0 1 1 0.1
      = Ok (Shown df xs ys 0.9999999999999999 2.5937424601
              analytical_y error relative_error) /\
    eulers_method 1 0 1 1 0.1 = Ok (df, xs, ys) /\
    List.length df = 10%nat /\
    (2.5937415 <? 2.5937424601) = true /\
    (2.5937424601 <? 2.5937425) = true /\
    (2.7182815 <? analytical_y) = true /\
    (analytical_y <? 2.7182825) = true /\
    (0.1245393 <? error) = true /\ (error <? 0.1245394) = true /\
    (4.5815 <? relative_error) = true /\
    (relative_error <? 4.5816) = true.
Proof.
  exact (proj1 (C8_scenario exp_series end_points) _
           scenario_exp_near scenario_curve).
Defined.

(** ** C9 *)















(** ** C10 *)

(** C10, as stated, fails: [eulers_method] does fail on some real inputs.
    With [h = 0] the division of line 23 raises [ZeroDivisionError]. *)
Lemma C10_counterexample :
  eulers_method (F := float) 1 0 1 1 0 = Raise ZeroDivisionError.
Proof. reflexivity. Qed.

(** C10 (amended): [eulers_method] checks nothing itself.  A zero step raises
    [ZeroDivisionError].  With [h > 0] and [x_target <= x0] (and, in binary64,
    a quotient that is finite) it returns an empty table and the trajectory
    of the single point [(x0, y0)], while [main] rejects that input with the
    message of the range: the checks are in [main] alone.  In exact
    arithmetic it returns for every [h <> 0]. *)
Theorem C10_no_validation :
  (forall k x0 y0 x_target h : float,
     (h =? 0) = true ->
     eulers_method k x0 y0 x_target h = Raise ZeroDivisionError) /\
  (forall k x0 y0 x_target h : float,
     (0 <? h) = true -> (x_target <=? x0) = true ->
     is_finite ((x_target - x0) / h) = true ->
     eulers_method k x0 y0 x_target h = Ok ([], [x0], [y0]) /\
     main k x0 y0 x_target h = Ok (StError InvalidRange)) /\
  (forall k x0 y0 x_target : R,
     eulers_method k x0 y0 x_target 0%R = Raise ZeroDivisionError) /\
  (forall k x0 y0 x_target h : R,
     h <> 0%R -> exists r, eulers_method k x0 y0 x_target h = Ok r) /\
  (forall k x0 y0 x_target h : R,
     (0 < h)%R -> (x_target <= x0)%R ->
     eulers_method k x0 y0 x_target h = Ok ([], [x0], [y0])).
Proof.
  split; [exact Binary64Program.eulers_method_zero_step|].
  split.
  { intros k x0 y0 x_target h Hh Hx Hf. split.
    - now apply Binary64Program.eulers_method_no_step.
    - apply Binary64Program.main_StError.
      rewrite Binary64Program.validate_cases.
      now rewrite (Binary64Program.ltb_leb_false _ _ Hh), Hx. }
  split; [exact ExactProgram.eulers_method_zero_step_exact|].
  split.
  { intros k x0 y0 x_target h Hh. eexists.
    now apply ExactProgram.eulers_method_exact. }
  exact ExactProgram.eulers_method_no_step_exact.
Qed.

Lemma C10_witness :
  eulers_method (F := float) 1 0 1 1 (-0) = Raise ZeroDivisionError /\
  (eulers_method (F := float) 1 0 1 0 0.1 = Ok ([], [0], [1]) /\
   main (F := float) 1 0 1 0 0.1 = Ok (StError InvalidRange)) /\
  (exists r, eulers_method 1%R 0%R 1%R 1%R (-1)%R = Ok r) /\
  eulers_method 1%R 1%R 1%R 0%R 1%R = Ok ([], [1%R], [1%R]).
Proof.
  split; [|split; [|split]].
  - exact (proj1 C10_no_validation 1 0 1 1 (-0) eq_refl).
  - exact (proj1 (proj2 C10_no_validation) 1 0 1 0 0.1 eq_refl eq_refl eq_refl).
  - refine (proj1 (proj2 (proj2 (proj2 C10_no_validation)))
              1%R 0%R 1%R 1%R (-1)%R _).
    lra.
  - refine (proj2 (proj2 (proj2 (proj2 C10_no_validation)))
              1%R 1%R 1%R 0%R 1%R _ _); lra.
Defined.

End Claims.

(** * Further properties of the program *)

Module Extras.
Import SF Exact Binary64.
Import Binary64Facts Binary64Program Binary64More ExactProgram ExactMore.

(** ** The outputs of a run, for any arithmetic *)

(** A run of two steps of size one half, on binary64. *)
Lemma run_half :
  eulers_method 1%float 0%float 1%float 1%float 0.5%float =
  Ok (map (row_at 1%float 0%float 1%float 0.5%float) (seq 0 2),
      map (x_at 0%float 0.5%float) (seq 0 3),
      map (y_at 1%float 1%float 0.5%float) (seq 0 3)).
Proof. vm_compute. reflexivity. Qed.

(** X1: whenever [eulers_method] returns, whatever the arithmetic and the
    signs of its inputs, both lists start at the initial point; with a table
    that is not empty the last abscissa is the last row's [x_n] plus [h] and
    the last ordinate is the last row's [y_next]; with an empty table both
    lists hold the initial point alone, so that line 143 of [main] never
    raises [IndexError]. *)
Theorem X1_final_point_last_row {F : Type} {num : PyNumber F}
  (k x0 y0 x_target h : F) (df : list (StepRecord F)) (xs ys : list F) :
  eulers_method k x0 y0 x_target h = Ok (df, xs, ys) ->
  index xs 0 = Ok x0 /\ index ys 0 = Ok y0 /\
  match index_last df with
  | Ok row =>
      index_last xs = Ok (add (x_n row) h) /\ index_last ys = Ok (y_next row)
  | Raise _ => xs = [x0] /\ ys = [y0]
  end.
Proof.
  intros H. destruct (eulers_method_inv _ _ _ _ _ _ _ _ H) as (n & -> & -> & -> & _).
  split; [|split].
  - apply (index_map_seq (x_at x0 h) (S n) 0). lia.
  - apply (index_map_seq (y_at k y0 h) (S n) 0). lia.
  - destruct n as [|n].
    + split; reflexivity.
    + rewrite !index_last_map_seq. split; reflexivity.
Qed.

Lemma X1_witness :
  let df := map (row_at 1%float 0%float 1%float 0.5%float) (seq 0 2) in
  let xs := map (x_at 0%float 0.5%float) (seq 0 3) in
  let ys := map (y_at 1%float 1%float 0.5%float) (seq 0 3) in
  index xs 0 = Ok 0%float /\ index ys 0 = Ok 1%float /\
  match index_last df with
  | Ok row =>
      index_last xs = Ok (add (x_n row) 0.5%float) /\
      index_last ys = Ok (y_next row)
  | Raise _ => xs = [0%float] /\ ys = [1%float]
  end.
Proof.
  exact (X1_final_point_last_row 1%float 0%float 1%float 1%float 0.5%float
           _ _ _ run_half).
Defined.

(** X2: the loop of lines 193-212 never raises on the lists of a run: its
    lookups at [i] and [i + 1] stay in range.  For a table of [n <= 19] rows
    it adds [2 * n] traces, for step [i] the horizontal segment from
    [(x_i, y_i)] to [(x_{i+1}, y_i)] and then the vertical one up to
    [(x_{i+1}, y_{i+1})]; for a longer table it adds none. *)
Theorem X2_step_traces {F : Type} {num : PyNumber F}
  (k x0 y0 x_target h : F) (df : list (StepRecord F)) (xs ys : list F) :
  eulers_method k x0 y0 x_target h = Ok (df, xs, ys) ->
  exists traces,
    step_traces xs ys = Ok traces /\
    traces =
      (if (List.length df <=? 19)%nat
       then flat_map (step_pair_at k x0 y0 h) (seq 0 (List.length df))
       else []) /\
    List.length traces =
      (if (List.length df <=? 19)%nat then 2 * List.length df else 0)%nat.
Proof.
  intros H. destruct (eulers_method_inv _ _ _ _ _ _ _ _ H) as (n & -> & -> & -> & _).
  rewrite length_map, length_seq, step_traces_run.
  eexists. split; [reflexivity|]. split; [reflexivity|].
  destruct (n <=? 19)%nat; [|reflexivity].
  now rewrite length_flat_map_pairs, length_seq.
Qed.

Lemma X2_witness :
  exists traces,
    step_traces (map (x_at 0%float 0.5%float) (seq 0 3))
                (map (y_at 1%float 1%float 0.5%float) (seq 0 3)) = Ok traces /\
    traces =
      (if (List.length (map (row_at 1%float 0%float 1%float 0.5%float) (seq 0 2))
             <=? 19)%nat
       then flat_map (step_pair_at 1%float 0%float 1%float 0.5%float)
              (seq 0 (List.length
                        (map (row_at 1%float 0%float 1%float 0.5%float) (seq 0 2))))
       else []) /\
    List.length traces =
      (if (List.length (map (row_at 1%float 0%float 1%float 0.5%float) (seq 0 2))
             <=? 19)%nat
       then 2 * List.length
                  (map (row_at 1%float 0%float 1%float 0.5%float) (seq 0 2))
       else 0)%nat.
Proof.
  exact (X2_step_traces 1%float 0%float 1%float 1%float 0.5%float _ _ _ run_half).
Defined.

(** ** The program on binary64 *)

Local Open Scope float_scope.

Lemma int_of_finite (q : float) :
  finite_sf (Prim2SF q) -> exists n, int_of_float q = Ok n.
Proof.
  unfold int_of_float. destruct (Prim2SF q); cbn; intros H;
    try contradiction; eexists; reflexivity.
Qed.

(** X3: which exception [eulers_method] raises on binary64 inputs.
    [ZeroDivisionError] exactly when [h] is a zero; [ValueError] exactly
    when [h] is not a zero and the quotient [(x_target - x0) / h] is a NaN
    ([int] of a NaN); [OverflowError] exactly when [h] is not a zero and the
    quotient is an infinity; never [IndexError].  It returns exactly when
    [h] is not a zero and the quotient is finite. *)
Theorem X3_eulers_method_exceptions (k x0 y0 x_target h : float) :
  (eulers_method k x0 y0 x_target h = Raise ZeroDivisionError <->
     (h =? 0) = true) /\
  (eulers_method k x0 y0 x_target h = Raise ValueError <->
     (h =? 0) = false /\ is_nan ((x_target - x0) / h) = true) /\
  (eulers_method k x0 y0 x_target h = Raise OverflowError <->
     (h =? 0) = false /\ is_inf ((x_target - x0) / h) = true) /\
  eulers_method k x0 y0 x_target h <> Raise IndexError /\
  ((exists df xs ys, eulers_method k x0 y0 x_target h = Ok (df, xs, ys)) <->
     (h =? 0) = false /\ is_finite ((x_target - x0) / h) = true).
Proof.
  rewrite eulers_method_by_class.
  rewrite is_nan_spec, is_inf_spec, is_finite_spec.
  destruct (h =? 0).
  - classify.
  - destruct (Prim2SF ((x_target - x0) / h)) eqn:E; cbn [finite_sf];
      try (destruct (int_of_finite ((x_target - x0) / h)) as (n & Hn);
           [now rewrite E|]; rewrite Hn; cbn [bind]);
      classify.
Qed.

(** The handler once the three checks have passed: the outcome by the class
    of the quotient. *)
Lemma main_by_class (k x0 y0 x_target h : float) :
  validate x0 x_target h = Ok None ->
  main k x0 y0 x_target h =
  match Prim2SF ((x_target - x0) / h) with
  | S754_nan => Ok (CalcError ValueError)
  | S754_infinity _ => Ok (CalcError OverflowError)
  | _ =>
      match int_of_float ((x_target - x0) / h) with
      | Ok n =>
          Ok (Calculated (map (row_at k x0 y0 h) (seq 0 (Z.to_nat n)))
                         (map (x_at x0 h) (seq 0 (S (Z.to_nat n))))
                         (map (y_at k y0 h) (seq 0 (S (Z.to_nat n))))
                         (x_at x0 h (Z.to_nat n)) (y_at k y0 h (Z.to_nat n)))
      | Raise e => Ok (CalcError e)
      end
  end.
Proof.
  intros Hv. rewrite (main_after_validation _ _ _ _ _ Hv).
  rewrite eulers_method_by_class.
  rewrite validate_cases in Hv.
  destruct (h <=? 0) eqn:Hh; [discriminate|].
  rewrite (leb_false_nonzero _ Hh).
  destruct (Prim2SF ((x_target - x0) / h)); try reflexivity;
    destruct (int_of_float ((x_target - x0) / h)); cbn [bind]; try reflexivity;
    now rewrite !index_last_map_seq.
Qed.

(** X4: no exception escapes the handler of the "Calculate" button on
    binary64 inputs: the three checks never raise (the division of line 136
    is reached only with [h] not a zero), and what the [try] block raises is
    caught.  What is caught from the computation of the trajectory is a
    [ValueError] or an [OverflowError], never a [ZeroDivisionError] or an
    [IndexError]. *)
Theorem X4_main_catches (k x0 y0 x_target h : float) :
  exists o,
    main k x0 y0 x_target h = Ok o /\
    match o with
    | CalcError e => e = ValueError \/ e = OverflowError
    | _ => True
    end.
Proof.
  destruct (validate x0 x_target h) as [[msg|]|e] eqn:Hv.
  - exists (StError msg). split; [now apply main_StError | exact I].
  - rewrite (main_by_class _ _ _ _ _ Hv).
    destruct (Prim2SF ((x_target - x0) / h)) eqn:E;
      try (destruct (int_of_finite ((x_target - x0) / h)) as (n & Hn);
           [now rewrite E|]; rewrite Hn);
      eexists; (split; [reflexivity|]); cbn; auto.
  - rewrite validate_cases in Hv.
    destruct (h <=? 0); [discriminate|].
    destruct (x_target <=? x0); [discriminate|].
    destruct (10000 <? (x_target - x0) / h); discriminate.
Qed.

(** X5: with finite [x0], [x_target] and [h] the handler ends in one of the
    three messages or with the results of a run of at most 10000 steps: the
    [except] branch is not taken. *)
Theorem X5_finite_inputs (k x0 y0 x_target h : float) :
  is_finite x0 = true -> is_finite x_target = true -> is_finite h = true ->
  (exists msg,
     main k x0 y0 x_target h = Ok (StError msg) /\
     (msg = InvalidStepSize \/ msg = InvalidRange \/ msg = StepCountExceeded)) \/
  (exists num_steps df xs ys,
     (0 <= num_steps <= 10000)%Z /\
     eulers_method k x0 y0 x_target h = Ok (df, xs, ys) /\
     main k x0 y0 x_target h =
       Ok (Calculated df xs ys (x_at x0 h (Z.to_nat num_steps))
                               (y_at k y0 h (Z.to_nat num_steps)))).
Proof.
  intros Hx0 Hxt Hh.
  destruct (validate x0 x_target h) as [[msg|]|e] eqn:Hv.
  - left. exists msg. split; [now apply main_StError|].
    rewrite validate_cases in Hv.
    destruct (h <=? 0); [injection Hv as <-; auto|].
    destruct (x_target <=? x0); [injection Hv as <-; auto|].
    destruct (10000 <? (x_target - x0) / h); [injection Hv as <-; auto|].
    discriminate.
  - right.
    pose proof (finite_validated_valid _ _ _ Hx0 Hxt Hh Hv) as Hvalid.
    destruct (valid_quotient _ _ _ Hvalid) as (n & _ & Hn & _ & Hb).
    destruct (main_valid k _ y0 _ _ Hvalid) as (n' & df & xs & ys & Hn' & He & Hm).
    rewrite Hn in Hn'. injection Hn' as <-.
    exists n, df, xs, ys. auto.
  - rewrite validate_cases in Hv.
    destruct (h <=? 0); [discriminate|].
    destruct (x_target <=? x0); [discriminate|].
    destruct (10000 <? (x_target - x0) / h); discriminate.
Qed.

Lemma X5_witness :
  (exists msg,
     main 1 0 1 1 0.5 = Ok (StError msg) /\
     (msg = InvalidStepSize \/ msg = InvalidRange \/ msg = StepCountExceeded)) \/
  (exists num_steps df xs ys,
     (0 <= num_steps <= 10000)%Z /\
     eulers_method 1 0 1 1 0.5 = Ok (df, xs, ys) /\
     main 1 0 1 1 0.5 =
       Ok (Calculated df xs ys (x_at 0 0.5 (Z.to_nat num_steps))
                               (y_at 1 1 0.5 (Z.to_nat num_steps)))).
Proof.
  apply (X5_finite_inputs 1 0 1 1 0.5); reflexivity.
Defined.

(** X6: the checks of lines 128-138 let a NaN through, since every
    comparison with a NaN is false: when [x0], [x_target] or [h] is a NaN
    and the checks on the other inputs pass, no message is shown, the
    quotient is a NaN, [int] raises [ValueError] on line 23 and the handler
    ends in its [except] branch. *)
Theorem X6_nan_inputs (k x0 y0 x_target h : float) :
  is_nan x0 = true \/ is_nan x_target = true \/ is_nan h = true ->
  (h <=? 0) = false -> (x_target <=? x0) = false ->
  validate x0 x_target h = Ok None /\
  eulers_method k x0 y0 x_target h = Raise ValueError /\
  main k x0 y0 x_target h = Ok (CalcError ValueError).
Proof.
  intros Hnan Hh Hx.
  pose proof (quotient_nan _ _ _ Hnan) as Hq.
  assert (Hv : validate x0 x_target h = Ok None).
  { rewrite validate_cases, Hh, Hx.
    rewrite nan_ltb_false; [reflexivity|].
    right. now apply is_nan_spec. }
  split; [exact Hv|]. split.
  - rewrite eulers_method_by_class, (leb_false_nonzero _ Hh), Hq. reflexivity.
  - rewrite (main_by_class _ _ _ _ _ Hv), Hq. reflexivity.
Qed.

Lemma X6_witness :
  validate nan 1 1 = Ok None /\
  eulers_method 1 nan 1 1 1 = Raise ValueError /\
  main 1 nan 1 1 1 = Ok (CalcError ValueError).
Proof.
  apply (X6_nan_inputs 1 nan 1 1 1); [left|..]; reflexivity.
Defined.

Lemma finite_sf_of_int (q : float) (n : Z) :
  int_of_float q = Ok n -> finite_sf (Prim2SF q).
Proof.
  unfold int_of_float. destruct (Prim2SF q); cbn; intros H;
    try discriminate; exact I.
Qed.

Lemma valid_half : valid_input (F := float) 0 1 0.5.
Proof.
  repeat split. exists (1 / 0.5). split; vm_compute; reflexivity.
Qed.

(** X7: an initial value of zero stays zero.  For a valid input with finite
    [k] and [h] and [y0] a zero of either sign, every ordinate of the
    trajectory is a zero; and when [math.exp] returns a finite value at the
    last abscissa and the sampling of the analytical curve (lines 165-166)
    raises nothing, the handler shows an analytical value that is a zero
    too, and an absolute and a relative error of [0.0]. *)
Theorem X7_zero_initial_value (libm_exp : float -> float)
  (np_linspace : float -> float -> nat -> list float)
  (k x0 y0 x_target h : float) :
  valid_input x0 x_target h ->
  is_finite k = true -> is_finite h = true -> (y0 =? 0) = true ->
  exists df xs ys final_x final_y,
    main k x0 y0 x_target h = Ok (Calculated df xs ys final_x final_y) /\
    Forall (fun y => (y =? 0) = true) ys /\
    (final_y =? 0) = true /\
    forall r curve,
      math_exp_of libm_exp (k * (final_x - x0)) = Ok r ->
      is_finite r = true ->
      analytical_curve (mth := math libm_exp) (np := numpy np_linspace)
        k x0 y0 x_target = Ok curve ->
      (y0 * r =? 0) = true /\
      calculate (mth := math libm_exp) (np := numpy np_linspace)
        k x0 y0 x_target h
        = Ok (Shown df xs ys final_x final_y (y0 * r) 0 0).
Proof.
  intros Hvalid Hk Hh Hy0.
  pose proof (valid_input_validate _ _ _ Hvalid) as Hv.
  destruct (valid_quotient _ _ _ Hvalid) as (n & _ & Hn & _ & _).
  pose proof (finite_sf_of_int _ _ Hn) as Hq.
  pose proof (main_by_class k _ y0 _ _ Hv) as Hm. rewrite Hn in Hm.
  assert (Hm' : main k x0 y0 x_target h =
                Ok (Calculated (map (row_at k x0 y0 h) (seq 0 (Z.to_nat n)))
                      (map (x_at x0 h) (seq 0 (S (Z.to_nat n))))
                      (map (y_at k y0 h) (seq 0 (S (Z.to_nat n))))
                      (x_at x0 h (Z.to_nat n)) (y_at k y0 h (Z.to_nat n)))).
  { rewrite Hm. destruct (Prim2SF ((x_target - x0) / h));
      cbn in Hq; try contradiction; reflexivity. }
  do 5 eexists. split; [exact Hm'|]. split; [|split].
  - apply Forall_forall. intros y Hy. apply in_map_iff in Hy.
    destruct Hy as (i & <- & _). now apply y_at_zero.
  - now apply y_at_zero.
  - intros r curve Hr Hfin Hc.
    pose proof (mul_zero_finite _ _ Hy0 Hfin) as Ha.
    pose proof (y_at_zero k y0 h (Z.to_nat n) Hk Hh Hy0) as Hf.
    split; [exact Ha|].
    rewrite (Binary64Handler.calculate_shown _ _ _ _ _ _ _ _ _ _ _ _ _ _
               Hm' Hr Hc).
    now rewrite Ha, (abs_sub_zero_zero _ _ Ha Hf).
Qed.

Lemma X7_witness :
  exists df xs ys final_x final_y,
    main 1 0 (-0) 1 0.5 = Ok (Calculated df xs ys final_x final_y) /\
    Forall (fun y => (y =? 0) = true) ys /\
    (final_y =? 0) = true /\
    forall r curve,
      math_exp_of exp_sample (1 * (final_x - 0)) = Ok r ->
      is_finite r = true ->
      analytical_curve (mth := math exp_sample) (np := numpy end_points)
        1 0 (-0) 1 = Ok curve ->
      (-0 * r =? 0) = true /\
      calculate (mth := math exp_sample) (np := numpy end_points)
        1 0 (-0) 1 0.5
        = Ok (Shown df xs ys final_x final_y (-0 * r) 0 0).
Proof.
  apply (X7_zero_initial_value exp_sample end_points 1 0 (-0) 1 0.5);
    [exact valid_half | reflexivity..].
Defined.

(** X8: when the analytical value is a zero (of either sign) the relative
    error is set to [0], and the note of lines 271-276 is the one of success
    ("Excellent accuracy"), whatever the last ordinate of the run is, a NaN
    or an infinity included. *)
Theorem X8_verdict_at_zero (final_y analytical_y : float) :
  (analytical_y =? 0) = true ->
  Verdict.accuracy_verdict final_y analytical_y = Ok Success.
Proof.
  intros H. unfold Verdict.accuracy_verdict.
  rewrite error_metrics_float, H. cbn [bind].
  now rewrite accuracy_note_zero.
Qed.

Lemma X8_witness : Verdict.accuracy_verdict nan (-0) = Ok Success.
Proof. apply (X8_verdict_at_zero nan (-0)). reflexivity. Defined.

(** X9: when the analytical value is an infinity, the relative error is a
    NaN (an infinity or a NaN divided by an infinity), both tests of lines
    271-274 are false and the note is the neutral one ("Good accuracy"). *)
Theorem X9_verdict_at_infinity (final_y analytical_y : float) :
  is_inf analytical_y = true ->
  exists error relative,
    error_metrics final_y analytical_y = Ok (error, relative) /\
    is_nan relative = true /\
    Verdict.accuracy_verdict final_y analytical_y = Ok Info.
Proof.
  intros H. unfold Verdict.accuracy_verdict.
  rewrite error_metrics_float, (infinite_nonzero _ H). cbn [bind].
  pose proof (relative_error_of_infinite final_y _ H) as Hnan.
  do 2 eexists. split; [reflexivity|]. split; [exact Hnan|].
  now rewrite (accuracy_note_nan _ Hnan).
Qed.

Lemma X9_witness :
  exists error relative,
    error_metrics 1 infinity = Ok (error, relative) /\
    is_nan relative = true /\
    Verdict.accuracy_verdict 1 infinity = Ok Info.
Proof. apply (X9_verdict_at_infinity 1 infinity). reflexivity. Defined.

(** A step size within the bounds of the widget is a positive finite
    number. *)
Lemma in_range_positive (h : float) :
  StepSize.in_range h = true -> exists m e, Prim2SF h = S754_finite false m e.
Proof.
  unfold StepSize.in_range. intros H. apply andb_true_iff in H.
  destruct H as (Hlo & Hhi). rewrite leb_spec in Hlo, Hhi.
  assert (H0 : exists m e, Prim2SF StepSize.min_value = S754_finite false m e)
    by (do 2 eexists; vm_compute; reflexivity).
  assert (H1 : exists m e, Prim2SF StepSize.max_value = S754_finite false m e)
    by (do 2 eexists; vm_compute; reflexivity).
  destruct H0 as (m0 & e0 & E0). destruct H1 as (m1 & e1 & E1).
  rewrite E0 in Hlo. rewrite E1 in Hhi. clear E0 E1.
  destruct (Prim2SF h) as [s|[|]| |[|] m e];
    try discriminate Hlo; try discriminate Hhi.
  now exists m, e.
Qed.

(** X16: a step size within the bounds that the widget of lines 116-123
    declares, from [0.001] to [1.0], is finite and positive; the message of
    the step size is then never shown and the division of line 23 never
    raises [ZeroDivisionError]. *)
Theorem X16_step_size_in_range (k x0 y0 x_target h : float) :
  StepSize.in_range h = true ->
  is_finite h = true /\
  (h <=? 0) = false /\
  main k x0 y0 x_target h <> Ok (StError InvalidStepSize) /\
  eulers_method k x0 y0 x_target h <> Raise ZeroDivisionError.
Proof.
  intros H. destruct (in_range_positive _ H) as (m & e & E).
  assert (Hfin : is_finite h = true) by (apply is_finite_spec; now rewrite E).
  assert (Hpos : (h <=? 0) = false).
  { rewrite leb_spec, E, Prim2SF_zero. reflexivity. }
  split; [exact Hfin|]. split; [exact Hpos|]. split.
  - intros Hm. apply main_StError in Hm.
    rewrite validate_cases, Hpos in Hm.
    unfold InvalidStepSize, InvalidRange, StepCountExceeded in Hm.
    destruct (x_target <=? x0); [discriminate Hm|].
    destruct (10000 <? (x_target - x0) / h); discriminate Hm.
  - rewrite eulers_method_by_class, (leb_false_nonzero _ Hpos).
    destruct (Prim2SF ((x_target - x0) / h)) eqn:Eq; try discriminate;
      (destruct (int_of_finite ((x_target - x0) / h)) as (n & Hn);
       [now rewrite Eq|]); rewrite Hn; cbn [bind]; discriminate.
Qed.

Lemma X16_witness :
  is_finite 0.1 = true /\
  (0.1 <=? 0) = false /\
  main 1 0 1 1 0.1 <> Ok (StError InvalidStepSize) /\
  eulers_method 1 0 1 1 0.1 <> Raise ZeroDivisionError.
Proof. apply (X16_step_size_in_range 1 0 1 1 0.1). reflexivity. Defined.

(** ** The program in exact arithmetic *)

Local Close Scope float_scope.
Local Open Scope R_scope.

Lemma index_map_seq_inv {A : Type} (f : nat -> A) (m i : nat) (a : A) :
  index (map f (seq 0 m)) i = Ok a -> a = f i /\ (i < m)%nat.
Proof.
  intros H. destruct (Nat.lt_ge_cases i m) as [Hi|Hi].
  - rewrite index_map_seq in H by assumption. injection H as <-. auto.
  - unfold index in H.
    rewrite (proj2 (nth_error_None _ _)) in H; [discriminate|].
    now rewrite length_map, length_seq.
Qed.

(** X10: in exact arithmetic the run has a closed form, for every step size
    other than zero: the [i]-th abscissa is [x0 + i * h], the [i]-th
    ordinate is [y0 * (1 + h * k) ^ i], and row [i] of the table holds
    [Step = i], these two values, the slope [k * y_i] and the next ordinate
    [(1 + h * k) * y_i]. *)
Theorem X10_closed_form (k x0 y0 x_target h : R) :
  h <> 0 ->
  exists df xs ys,
    eulers_method k x0 y0 x_target h = Ok (df, xs, ys) /\
    (forall i x, index xs i = Ok x -> x = x0 + INR i * h) /\
    (forall i y, index ys i = Ok y -> y = y0 * (1 + h * k) ^ i) /\
    (forall i row, index df i = Ok row ->
       Step row = i /\
       x_n row = x0 + INR i * h /\
       y_n row = y0 * (1 + h * k) ^ i /\
       slope_n row = k * y_n row /\
       y_next row = (1 + h * k) * y_n row).
Proof.
  intros Hh. rewrite eulers_method_exact by assumption. cbv zeta.
  do 3 eexists. split; [reflexivity|]. split; [|split].
  - intros i x H. apply index_map_seq_inv in H. destruct H as (-> & _).
    apply x_at_exact.
  - intros i y H. apply index_map_seq_inv in H. destruct H as (-> & _).
    apply y_at_exact.
  - intros i row H. apply index_map_seq_inv in H. destruct H as (-> & _).
    cbn [row_at Step x_n y_n slope_n y_next].
    rewrite x_at_exact, !y_at_exact. cbn [pow mul number].
    repeat split; ring.
Qed.

Lemma X10_witness :
  exists df xs ys,
    eulers_method 1 0 1 1 (1 / 2) = Ok (df, xs, ys) /\
    (forall i x, index xs i = Ok x -> x = 0 + INR i * (1 / 2)) /\
    (forall i y, index ys i = Ok y -> y = 1 * (1 + 1 / 2 * 1) ^ i) /\
    (forall i row, index df i = Ok row ->
       Step row = i /\
       x_n row = 0 + INR i * (1 / 2) /\
       y_n row = 1 * (1 + 1 / 2 * 1) ^ i /\
       slope_n row = 1 * y_n row /\
       y_next row = (1 + 1 / 2 * 1) * y_n row).
Proof. apply (X10_closed_form 1 0 1 1 (1 / 2)). lra. Defined.

(** The two factors of the final values of a run of [n >= 1] steps: the
    power [(1 + h k)^n] lies below the exponential. *)
Lemma factors (k h : R) (n : nat) :
  (1 <= n)%nat -> h <> 0 -> k <> 0 -> 0 <= 1 + h * k ->
  0 <= (1 + h * k) ^ n < exp (k * (INR n * h)).
Proof.
  intros Hn Hh Hk Hc. split.
  - now apply pow_le.
  - replace (k * (INR n * h)) with (INR n * (h * k)) by ring.
    apply RealFacts.pow_lt_exp; try assumption.
    now apply Rmult_integral_contrapositive_currified.
Qed.

Lemma at_least_one_step (x0 x_target h : R) :
  0 < h -> h <= x_target - x0 -> (1 <= steps x0 x_target h)%nat.
Proof.
  intros Hh Hx.
  assert (Hq : 1 <= (x_target - x0) / h).
  { apply (Rmult_le_reg_r h); [assumption|]. field_simplify; lra. }
  destruct (run_exact 0 x0 0 x_target h) as (_ & _ & Hn); [lra|].
  destruct (steps x0 x_target h); [cbn in Hn; lra | lia].
Qed.

(** X11: in exact arithmetic, for a valid input with at least one step
    ([h <= x_target - x0]), [y0 <> 0], [k <> 0] and [1 + h * k >= 0], the
    last ordinate of the run is smaller in magnitude than the analytical
    value at the last abscissa, since [(1 + c)^n < exp (n c)]: the absolute
    error is the difference of the magnitudes and is positive, and the
    relative error lies in (0, 100] percent. *)
Theorem X11_euler_below_analytical (k x0 y0 x_target h : R) :
  0 < h -> h <= x_target - x0 -> y0 <> 0 -> k <> 0 -> 0 <= 1 + h * k ->
  exists df xs ys final_x final_y analytical_y error relative,
    eulers_method k x0 y0 x_target h = Ok (df, xs, ys) /\
    results k x0 y0 x_target xs ys
      = Ok (final_x, final_y, analytical_y, error, relative) /\
    Rabs final_y < Rabs analytical_y /\
    error = Rabs analytical_y - Rabs final_y /\
    0 < error /\
    0 < relative <= 100.
Proof.
  intros Hh Hx Hy0 Hk Hc.
  pose proof (at_least_one_step _ _ _ Hh Hx) as Hn.
  destruct (run_exact k x0 y0 x_target h) as (He & _ & _).
  { apply quotient_pos; lra. }
  cbv zeta in He. set (n := steps x0 x_target h) in *.
  do 8 eexists. split; [exact He|]. split; [apply results_exact|]. cbv zeta.
  replace (x0 + INR n * h - x0) with (INR n * h) by ring.
  destruct (factors k h n Hn) as (HP & HPE); try assumption; [lra|].
  set (P := (1 + h * k) ^ n) in *. set (E := exp (k * (INR n * h))) in *.
  assert (Hy : 0 < Rabs y0) by now apply Rabs_pos_lt.
  assert (HaE : Rabs (y0 * E) = Rabs y0 * E)
    by (rewrite Rabs_mult, (Rabs_pos_eq E); [reflexivity | lra]).
  assert (HaP : Rabs (y0 * P) = Rabs y0 * P)
    by (rewrite Rabs_mult, (Rabs_pos_eq P); [reflexivity | lra]).
  assert (Herr : Rabs (y0 * E - y0 * P) = Rabs y0 * (E - P)).
  { replace (y0 * E - y0 * P) with (y0 * (E - P)) by ring.
    rewrite Rabs_mult, (Rabs_pos_eq (E - P)); [reflexivity | lra]. }
  rewrite Herr, HaE, HaP.
  destruct (Req_dec_T (y0 * E) 0) as [Hz|_].
  { exfalso. apply Rmult_integral in Hz. destruct Hz; lra. }
  replace (Rabs y0 * (E - P) / (Rabs y0 * E) * 100)
    with ((1 - P / E) * 100) by (field; lra).
  assert (HPE' : 0 <= P / E < 1).
  { split.
    - apply Rmult_le_pos; [lra|]. apply Rlt_le, Rinv_0_lt_compat. lra.
    - apply (Rmult_lt_reg_r E); [lra|]. field_simplify; lra. }
  repeat split; nra.
Qed.

Lemma X11_witness :
  exists df xs ys final_x final_y analytical_y error relative,
    eulers_method 1 0 1 1 (1 / 2) = Ok (df, xs, ys) /\
    results 1 0 1 1 xs ys
      = Ok (final_x, final_y, analytical_y, error, relative) /\
    Rabs final_y < Rabs analytical_y /\
    error = Rabs analytical_y - Rabs final_y /\
    0 < error /\
    0 < relative <= 100.
Proof. apply (X11_euler_below_analytical 1 0 1 1 (1 / 2)); lra. Defined.

(** X12: in exact arithmetic the relative error shown for a valid input
    does not depend on the initial value, as long as it is not zero: it is
    [|1 - (1 + h k)^n / exp (k n h)| * 100] with [n] the number of steps. *)
Theorem X12_relative_error_scale_free (k x0 y0 y0' x_target h : R) :
  0 < h -> x0 < x_target -> y0 <> 0 -> y0' <> 0 ->
  relative_error k x0 y0 x_target h =
    Ok (Rabs (1 - (1 + h * k) ^ steps x0 x_target h
                  / exp (k * (INR (steps x0 x_target h) * h))) * 100) /\
  relative_error k x0 y0 x_target h = relative_error k x0 y0' x_target h.
Proof.
  assert (H : forall y : R, 0 < h -> x0 < x_target -> y <> 0 ->
    relative_error k x0 y x_target h =
    Ok (Rabs (1 - (1 + h * k) ^ steps x0 x_target h
                  / exp (k * (INR (steps x0 x_target h) * h))) * 100)).
  { intros y Hh Hx Hy. unfold relative_error.
    destruct (run_exact k x0 y x_target h) as (He & _ & _).
    { now apply quotient_pos. }
    cbv zeta in He. rewrite He. cbn [bind].
    rewrite results_exact. cbv zeta. cbn [bind].
    set (n := steps x0 x_target h).
    replace (x0 + INR n * h - x0) with (INR n * h) by ring.
    set (P := (1 + h * k) ^ n). set (E := exp (k * (INR n * h))).
    assert (HE : 0 < E) by apply exp_pos.
    destruct (Req_dec_T (y * E) 0) as [Hz|_].
    { exfalso. apply Rmult_integral in Hz. destruct Hz; lra. }
    f_equal. f_equal.
    replace (y * E - y * P) with (y * E * (1 - P / E)) by (field; lra).
    rewrite Rabs_mult. field. apply Rabs_no_R0.
    intros Hz. apply Rmult_integral in Hz. destruct Hz; lra. }
  intros Hh Hx Hy Hy'. split; [now apply H|].
  now rewrite !H.
Qed.

Lemma X12_witness :
  relative_error 1 0 1 1 (1 / 2) =
    Ok (Rabs (1 - (1 + 1 / 2 * 1) ^ steps 0 1 (1 / 2)
                  / exp (1 * (INR (steps 0 1 (1 / 2)) * (1 / 2)))) * 100) /\
  relative_error 1 0 1 1 (1 / 2) = relative_error 1 0 7 1 (1 / 2).
Proof. apply (X12_relative_error_scale_free 1 0 1 7 1 (1 / 2)); lra. Defined.

(** X13: in exact arithmetic, when [-2 <= h * k <= 0] no ordinate of a run
    exceeds the initial value in magnitude, and in every row of the table
    [|y_next| <= |y_n|]: for a decaying solution the method is stable up to
    the step size [2 / |k|]. *)
Theorem X13_stability (k x0 y0 x_target h : R) :
  h <> 0 -> -2 <= h * k <= 0 ->
  exists df xs ys,
    eulers_method k x0 y0 x_target h = Ok (df, xs, ys) /\
    Forall (fun y => Rabs y <= Rabs y0) ys /\
    Forall (fun row => Rabs (y_next row) <= Rabs (y_n row)) df.
Proof.
  intros Hh Hc. rewrite eulers_method_exact by assumption. cbv zeta.
  assert (Habs : Rabs (1 + h * k) <= 1) by (apply Rabs_le; lra).
  do 3 eexists. split; [reflexivity|]. split.
  - apply Forall_forall. intros y Hy. apply in_map_iff in Hy.
    destruct Hy as (i & <- & _). rewrite y_at_exact, Rabs_mult.
    pose proof (Rabs_pow_le_1 _ i Habs). pose proof (Rabs_pos y0). nra.
  - apply Forall_forall. intros row Hrow. apply in_map_iff in Hrow.
    destruct Hrow as (i & <- & _). cbn [row_at y_next y_n].
    rewrite y_at_S. cbn [add mul number].
    replace (y_at k y0 h i + h * (k * y_at k y0 h i))
      with ((1 + h * k) * y_at k y0 h i) by ring.
    rewrite Rabs_mult. pose proof (Rabs_pos (y_at k y0 h i)). nra.
Qed.

Lemma X13_witness :
  exists df xs ys,
    eulers_method (-3) 0 1 1 (1 / 2) = Ok (df, xs, ys) /\
    Forall (fun y => Rabs y <= Rabs 1) ys /\
    Forall (fun row => Rabs (y_next row) <= Rabs (y_n row)) df.
Proof. apply (X13_stability (-3) 0 1 1 (1 / 2)); lra. Defined.

(** X14: in exact arithmetic, when [h * k < -2] and [y0 <> 0] the run
    oscillates and grows although the solution decays: in every row of the
    table [y_next] has the sign opposite to [y_n] and a larger magnitude. *)
Theorem X14_instability (k x0 y0 x_target h : R) :
  h <> 0 -> h * k < -2 -> y0 <> 0 ->
  exists df xs ys,
    eulers_method k x0 y0 x_target h = Ok (df, xs, ys) /\
    Forall (fun row =>
              y_n row * y_next row < 0 /\
              Rabs (y_n row) < Rabs (y_next row)) df.
Proof.
  intros Hh Hc Hy0. rewrite eulers_method_exact by assumption. cbv zeta.
  do 3 eexists. split; [reflexivity|].
  apply Forall_forall. intros row Hrow. apply in_map_iff in Hrow.
  destruct Hrow as (i & <- & _). cbn [row_at y_next y_n].
  rewrite y_at_S. cbn [add mul number].
  replace (y_at k y0 h i + h * (k * y_at k y0 h i))
    with ((1 + h * k) * y_at k y0 h i) by ring.
  assert (Hy : y_at k y0 h i <> 0).
  { rewrite y_at_exact. apply Rmult_integral_contrapositive_currified;
      [assumption|]. apply pow_nonzero. lra. }
  split.
  - assert (0 < y_at k y0 h i * y_at k y0 h i) by nra. nra.
  - rewrite Rabs_mult. pose proof (Rabs_pos_lt _ Hy).
    assert (1 < Rabs (1 + h * k)).
    { rewrite Rabs_left by lra. lra. }
    nra.
Qed.

Lemma X14_witness :
  exists df xs ys,
    eulers_method (-5) 0 1 1 (1 / 2) = Ok (df, xs, ys) /\
    Forall (fun row =>
              y_n row * y_next row < 0 /\
              Rabs (y_n row) < Rabs (y_next row)) df.
Proof. apply (X14_instability (-5) 0 1 1 (1 / 2)); lra. Defined.

(** X15: [eulers_method] itself accepts a negative step: in exact
    arithmetic, with [h < 0] and [x_target < x0] it walks backwards, the
    last point is [(x0 + n * h, y0 * (1 + h k)^n)] with [n] the floor of the
    quotient, and the last abscissa does not pass the target and is within
    one step of it. *)
Theorem X15_backward_run (k x0 y0 x_target h : R) :
  h < 0 -> x_target < x0 ->
  exists (final_x final_y : R) (n : nat),
    final_point k x0 y0 x_target h = Ok (final_x, final_y) /\
    INR n = IZR (Int_part ((x_target - x0) / h)) /\
    final_x = x0 + INR n * h /\
    final_y = y0 * (1 + h * k) ^ n /\
    final_x + h < x_target <= final_x.
Proof.
  intros Hh Hx.
  pose proof (quotient_pos_backward _ _ _ Hh Hx) as Hq.
  destruct (run_exact k x0 y0 x_target h Hq) as (_ & Hf & Hn).
  set (n := steps x0 x_target h) in *.
  exists (x0 + INR n * h), (y0 * (1 + h * k) ^ n), n.
  split; [exact Hf|]. split.
  { unfold n, steps. apply INR_to_nat, Int_part_nonneg. lra. }
  split; [reflexivity|]. split; [reflexivity|].
  assert (Hqh : (x_target - x0) / h * h = x_target - x0) by (field; lra).
  split; nra.
Qed.

Lemma X15_witness :
  exists (final_x final_y : R) (n : nat),
    final_point 1 1 1 0 (- (1 / 2)) = Ok (final_x, final_y) /\
    INR n = IZR (Int_part ((0 - 1) / (- (1 / 2)))) /\
    final_x = 1 + INR n * (- (1 / 2)) /\
    final_y = 1 * (1 + - (1 / 2) * 1) ^ n /\
    final_x + - (1 / 2) < 0 <= final_x.
Proof. apply (X15_backward_run 1 1 1 0 (- (1 / 2))); lra. Defined.

End Extras.
